(** * s-test: review agents for pull requests, commits and release notes

    A shallow embedding of the three entry points of the repository,
    [src/pr.ts], [src/commit.ts] and [src/release.ts], and the properties
    of the review pipeline proved over it.

    The scripts are effectful: they read the process environment, talk to
    the GitHub API through [fetch], hand a prompt and a tool to the AI
    SDK's [generateText], and write to the console.  The embedding keeps
    these effects explicit:

    - a computation of the scripts is a function from the history of the
      run (the events so far) to the events it emits and its completion
      (a value, or a thrown JavaScript error);
    - everything outside the repository is an oracle of a [World]: what
      [fetch] answers to a request, and how a [generateText] session
      behaves (it may end with a text, reject, or execute the registered
      tool and go on with what the tool gave). *)

From Stdlib Require Import String Ascii List ZArith Bool Lia DecimalString DecimalPos.
Import ListNotations.

Local Open Scope string_scope.
Local Open Scope list_scope.

Set Implicit Arguments.

(** ** JavaScript values the scripts rely on *)

Module Js.

(** [!v] for a value of type [string | undefined]: [undefined] and the
    empty string are falsy, every other string is truthy. *)
Definition truthy (v : option string) : bool :=
  match v with
  | None => false
  | Some s => negb (s =? "")
  end.

(** [a || b] on [string | undefined]. *)
Definition or_else (a b : option string) : option string :=
  if truthy a then a else b.

(** A template literal prints [undefined] as the word itself. *)
Definition show (v : option string) : string :=
  match v with
  | None => "undefined"
  | Some s => s
  end.

(** [s.includes(sep)]: [sep] occurs in [s] at some position. *)
Fixpoint includes (sep s : string) : bool :=
  prefix sep s ||
  match s with
  | EmptyString => false
  | String _ s' => includes sep s'
  end.

Fixpoint drop (n : nat) (s : string) : string :=
  match n, s with
  | O, _ => s
  | S _, EmptyString => EmptyString
  | S k, String _ s' => drop k s'
  end.

(** [s.split(sep)] for a non-empty separator, as the scan of
    String.prototype.split: [cur] is the component being read, [skip]
    counts the characters of a matched separator still to step over. *)
Fixpoint split_scan (sep s : string) (skip : nat) (cur : string) : list string :=
  match s with
  | EmptyString => [cur]
  | String c s' =>
      match skip with
      | S k => split_scan sep s' k cur
      | O =>
          if prefix sep s
          then cur :: split_scan sep s' (String.length sep - 1) ""
          else split_scan sep s' 0 (cur ++ String c "")
      end
  end.

Definition split (sep s : string) : list string := split_scan sep s 0 "".

(** The text before the first occurrence of [sep] and the text after it. *)
Fixpoint cut (sep s : string) : option (string * string) :=
  if prefix sep s then Some ("", drop (String.length sep) s)
  else
    match s with
    | EmptyString => None
    | String c s' =>
        match cut sep s' with
        | Some (a, b) => Some (String c a, b)
        | None => None
        end
    end.

(** Array destructuring [const [a, b] = arr]: a missing element is
    [undefined]. *)
Definition destructure2 (arr : list string) : option string * option string :=
  (nth_error arr 0, nth_error arr 1).

(** White space that [parseInt] skips, among the code units below 256. *)
Definition is_space (c : ascii) : bool :=
  let n := nat_of_ascii c in
  ((9 <=? n) && (n <=? 13) || (n =? 32) || (n =? 160))%nat.

Definition digit (c : ascii) : option Z :=
  let n := nat_of_ascii c in
  if ((48 <=? n) && (n <=? 57))%nat then Some (Z.of_nat n - 48)%Z else None.

Fixpoint skip_space (s : string) : string :=
  match s with
  | String c s' => if is_space c then skip_space s' else s
  | EmptyString => s
  end.

(** The longest prefix of decimal digits, read most significant first:
    [None] when there is no digit at all. *)
Fixpoint digits (s : string) (acc : option Z) : option Z :=
  match s with
  | EmptyString => acc
  | String c s' =>
      match digit c with
      | Some d =>
          digits s' (Some (match acc with Some a => 10 * a + d | None => d end)%Z)
      | None => acc
      end
  end.

(** [parseInt(s, 10)]; [None] is NaN.  Whether the result is NaN is
    exact for every string.  The value is the mathematical integer of
    the digits read: it is the JavaScript number when that integer is a
    safe integer (below 2^53 in magnitude); beyond, JavaScript rounds to
    the nearest double, and no statement below that names the value of
    a number is made outside the safe integers. *)
Definition parseInt (s : string) : option Z :=
  match skip_space s with
  | String "-" r => option_map Z.opp (digits r None)
  | String "+" r => digits r None
  | r => digits r None
  end.

(** [isNaN(n)]. *)
Definition isNaN (n : option Z) : bool :=
  match n with None => true | Some _ => false end.

(** A number in a template literal: the decimal numeral of an integer,
    as JavaScript prints every integer below 10^21 in magnitude (from
    there on it prints an exponent; numbers with a fraction are not
    modelled). *)
Definition show_number (n : Z) : string :=
  NilZero.string_of_int (Z.to_int n).

(** Thrown values. [External] stands for whatever the runtime or the
    SDK throws on its own (a network failure, a provider error, a
    failed tool execution wrapped by the SDK). *)
Inductive error : Type :=
| Error (message : string)
| TypeError (message : string)
| SyntaxError (message : string)
| External (tag : string).

End Js.

(** ** The outside world: requests, responses, sessions, events *)

Definition dq : string := String "034"%char EmptyString.
Definition newline : string := String "010"%char EmptyString.

(** A template literal is the concatenation of its pieces. *)
Definition template (pieces : list string) : string := String.concat "" pieces.

(** A template literal that spans several source lines. *)
Definition lines (ls : list string) : string := String.concat newline ls.

(** The second argument of [fetch]; the scripts never set a method. *)
Record RequestInit : Type := { method : option string; headers : list (string * string) }.

Record Request : Type := { url : string; init : RequestInit }.

(** The Fetch standard's default. *)
Definition http_method (r : Request) : string :=
  match method (init r) with
  | Some m => m
  | None => "GET"
  end.

Definition api : string := "https://api.github.com".

(** The JSON bodies the scripts decode, in the shape their type
    annotations give them: the compare endpoint answers an object whose
    [commits] field, when present, lists objects with a [sha]; the
    commits endpoint answers a list of objects with a [commit.message]. *)
Module Github.

Record Commit : Type := { sha : string }.

Record CommitEntry : Type := { message : string }.

End Github.

Inductive json : Type :=
| CompareData (commits : option (list Github.Commit))
| CommitList (entries : list Github.CommitEntry).

(** What a script reads of a response: [response.ok], [response.status],
    [response.statusText], [await response.text()] and
    [await response.json()], which rejects on a body that is not JSON. *)
Record Response : Type :=
  { ok : bool; status : Z; statusText : string; text : string; json_body : Js.error + json }.

Inductive fetched : Type :=
| Rejected (e : Js.error)
| Resolved (r : Response).

(** The options object passed to [generateText]; [tools] holds the keys
    of the tool registry. *)
Record GenerateOptions : Type :=
  { model : string; system : string; prompt : string; tools : list string; maxSteps : nat }.

(** What one [generateText] call does, seen from the script: it resolves
    with a text, it rejects, or it executes the registered tool with
    arguments of the model's choice and continues with what the execution
    gave (its result, or the error it threw).  [generateText] belongs to
    the [ai] package, not to the repository: which of these sessions a
    call can be, under the options it is given, is the package's
    business, and the scripts are verified for all of them. *)
Inductive Session (Args Res : Type) : Type :=
| Final (answer : string)
| Reject (e : Js.error)
| CallTool (args : Args) (k : Js.error + Res -> Session Args Res).

Arguments Final {Args Res} answer.
Arguments Reject {Args Res} e.
Arguments CallTool {Args Res} args k.

Inductive Event : Type :=
| EFetch (r : Request)
| EGenerate (o : GenerateOptions)
| EStdout (line : string)
| EStderr (label : string) (thrown : option Js.error).

Record World (Args Res : Type) : Type :=
  { fetch_reply : list Event -> Request -> fetched;
    generate_reply : list Event -> GenerateOptions -> Session Args Res }.

(** ** Computations of the scripts *)

Inductive completion (A : Type) : Type :=
| Normal (a : A)
| Throw (e : Js.error).

Arguments Normal {A} a.
Arguments Throw {A} e.

(** From the history of the run to the events emitted and the completion. *)
Definition M (A : Type) : Type := list Event -> list Event * completion A.

Definition ret {A} (a : A) : M A := fun _ => ([], Normal a).

Definition throw {A} (e : Js.error) : M A := fun _ => ([], Throw e).

Definition bind {A B} (m : M A) (f : A -> M B) : M B :=
  fun h =>
    match m h with
    | (evs, Normal a) =>
        let (evs', r) := f a (h ++ evs) in (evs ++ evs', r)
    | (evs, Throw e) => (evs, Throw e)
    end.

Declare Scope js_scope.
Delimit Scope js_scope with js.

Notation "x <- m ;; k" := (bind m (fun x => k))
  (at level 100, m at next level, right associativity) : js_scope.
Notation "m ;; k" := (bind m (fun _ => k))
  (at level 100, right associativity) : js_scope.

Local Open Scope js_scope.

(** [try { body } catch (error) { handler }]. *)
Definition try_catch {A} (body : M A) (handler : Js.error -> M A) : M A :=
  fun h =>
    match body h with
    | (evs, Normal a) => (evs, Normal a)
    | (evs, Throw e) =>
        let (evs', r) := handler e (h ++ evs) in (evs ++ evs', r)
    end.

(** [await response.json()]. *)
Definition response_json (r : Response) : M json :=
  fun _ =>
    ([], match json_body r with
         | inr j => Normal j
         | inl e => Throw e
         end).

(** [for (const x of xs) { body }]. *)
Fixpoint for_of {A} (xs : list A) (body : A -> M unit) : M unit :=
  match xs with
  | [] => ret tt
  | x :: rest => body x ;; for_of rest body
  end.

Definition console_log (s : string) : M unit := fun _ => ([EStdout s], Normal tt).

Definition console_error (s : string) (e : option Js.error) : M unit :=
  fun _ => ([EStderr s e], Normal tt).

Section Externals.

Context {Args Res : Type}.
Variable w : World Args Res.

(** [await fetch(url, init)]. *)
Definition fetch (u : string) (i : RequestInit) : M Response :=
  fun h =>
    let req := {| url := u; init := i |} in
    ([EFetch req],
     match fetch_reply w h req with
     | Rejected e => Throw e
     | Resolved r => Normal r
     end).

(** The session runs the tool's [execute] each time it calls the tool. *)
Fixpoint run_session (execute : Args -> M Res) (s : Session Args Res) : M string :=
  match s with
  | Final t => ret t
  | Reject e => throw e
  | CallTool a k =>
      fun h =>
        let (evs, r) := execute a h in
        let (evs', r') :=
          run_session execute
            (k match r with Normal v => inr v | Throw e => inl e end)
            (h ++ evs) in
        (evs ++ evs', r')
  end.

(** [const { text } = await generateText(options)], with [execute] the
    function of the one registered tool. *)
Definition generateText (o : GenerateOptions) (execute : Args -> M Res) : M string :=
  fun h =>
    let (evs, r) := run_session execute (generate_reply w h o) (h ++ [EGenerate o]) in
    (EGenerate o :: evs, r).

End Externals.

(** ** The process *)

Record Env : Type :=
  { GITHUB_OWNER : option string;
    GITHUB_REPO : option string;
    GITHUB_TOKEN : option string;
    SEMAPHORE_GIT_SHA : option string;
    SEMAPHORE_GIT_COMMIT_RANGE : option string;
    OPENAI_API_KEY : option string }.

(** How the process ends: the script ran to its end and the event loop
    drained; [process.exit(code)]; or an error nobody caught. *)
Inductive Outcome : Type :=
| Finished
| Exited (code : Z)
| Uncaught (e : Js.error).

Definition exit_status (o : Outcome) : Z :=
  match o with
  | Finished => 0
  | Exited c => c
  | Uncaught _ => 1
  end.

Record Run : Type := { trace : list Event; outcome : Outcome }.

(** A [throw] at the top level of the module. *)
Definition uncaught (e : Js.error) : Run := {| trace := []; outcome := Uncaught e |}.

(** [console.error(message); process.exit(code)] at the top level. *)
Definition error_exit (message : string) (code : Z) : Run :=
  {| trace := [EStderr message None]; outcome := Exited code |}.

(** The last statement of each script calls its async function and lets
    the promise go: a rejection would be an unhandled one. *)
Definition settle {A} (m : M A) : Run :=
  match m [] with
  | (evs, Normal _) => {| trace := evs; outcome := Finished |}
  | (evs, Throw e) => {| trace := evs; outcome := Uncaught e |}
  end.

(** Projections of a trace. *)
Definition requests (evs : list Event) : list Request :=
  flat_map (fun e => match e with EFetch r => [r] | _ => [] end) evs.

Definition sessions (evs : list Event) : list GenerateOptions :=
  flat_map (fun e => match e with EGenerate o => [o] | _ => [] end) evs.

Definition stdout (evs : list Event) : list string :=
  flat_map (fun e => match e with EStdout s => [s] | _ => [] end) evs.

Definition stderr (evs : list Event) : list (string * option Js.error) :=
  flat_map (fun e => match e with EStderr s x => [(s, x)] | _ => [] end) evs.

(** Requests to the host API and sessions with the model provider. *)
Definition network_calls (evs : list Event) : nat :=
  List.length (requests evs) + List.length (sessions evs).

(** ** src/pr.ts *)

Module Pr.

(** The tool's parameters: [z.object({ owner, repo, pullNumber })]. *)
Record Args : Type := { owner : string; repo : string; pullNumber : Z }.

(** [fetchPullRequestDiff.execute]; [token] is the module's GITHUB_TOKEN. *)
Definition fetchPullRequestDiff (w : World Args string) (token : string) (a : Args) : M string :=
  response <-
    fetch w
      (template [api; "/repos/"; owner a; "/"; repo a; "/pulls/"; Js.show_number (pullNumber a)])
      {| method := None;
         headers := [("Accept", "application/vnd.github.v3.diff");
                     ("Authorization", template ["Bearer "; token])] |} ;;
  if negb (ok response)
  then throw (Js.Error (template ["Failed to fetch PR diff for #"; Js.show_number (pullNumber a);
                                  ": "; Js.show_number (status response);
                                  " - "; statusText response]))
  else ret (text response).

Definition review_system : string :=
  lines
    [ "You are an AI assistant that reviews code changes in a pull request.";
      "      - Summarize key modifications.";
      "      - Flag potential security issues or code smells.";
      "      - Suggest best practices or improvements where relevant.";
      "      - Be concise but thorough in your review." ].

Definition review_prompt (owner repo : string) (pullNumber : Z) : string :=
  lines
    [ "";
      template ["      The pull request to analyze is #"; Js.show_number pullNumber; " in the "; owner; "/"; repo; " repository."];
      template ["      If you need the diff, call the "; dq; "fetchPullRequestDiff"; dq; " tool with:"];
      "      {";
      template ["        "; dq; "owner"; dq; ": "; dq; owner; dq; ","];
      template ["        "; dq; "repo"; dq; ": "; dq; repo; dq; ","];
      template ["        "; dq; "pullNumber"; dq; ": "; Js.show_number pullNumber];
      "      }.";
      "      " ].

Definition review_options (owner repo : string) (pullNumber : Z) : GenerateOptions :=
  {| model := "gpt-4o";
     system := review_system;
     prompt := review_prompt owner repo pullNumber;
     tools := ["fetchPullRequestDiff"];
     maxSteps := 2 |}.

(** The try block of [runCodeReview]. *)
Definition runCodeReview_try (w : World Args string) (owner repo token : string) (pullNumber : Z)
  : M unit :=
  answer <- generateText w (review_options owner repo pullNumber) (fetchPullRequestDiff w token) ;;
  console_log "=== AI Review Summary ===" ;;
  console_log answer ;;
  console_log "=========================".

Definition runCodeReview (w : World Args string) (owner repo token : string) (pullNumber : Z)
  : M unit :=
  try_catch
    (runCodeReview_try w owner repo token pullNumber)
    (fun error => console_error "Error running code review agent:" (Some error)).

(** The module body, top to bottom; [arg] is [process.argv[2]]. *)
Definition main (env : Env) (arg : option string) (w : World Args string) : Run :=
  if negb (Js.truthy (GITHUB_OWNER env))
  then uncaught (Js.Error "Environment variable GITHUB_OWNER is not set.")
  else if negb (Js.truthy (GITHUB_REPO env))
  then uncaught (Js.Error "Environment variable GITHUB_REPO is not set.")
  else if negb (Js.truthy (GITHUB_TOKEN env))
  then uncaught (Js.Error "Environment variable GITHUB_TOKEN is not set.")
  else if negb (Js.truthy arg)
  then error_exit "Usage: npx tsx --env-file=.env src/pr.ts <pull-number>" 1
  else
    match Js.parseInt (Js.show arg) with
    | None => error_exit (template ["Invalid pull request number: "; Js.show arg]) 1
    | Some pullNumber =>
        settle (runCodeReview w (Js.show (GITHUB_OWNER env)) (Js.show (GITHUB_REPO env))
                  (Js.show (GITHUB_TOKEN env)) pullNumber)
    end.

End Pr.

(** ** src/commit.ts *)

Module Commit.

(** The tool's parameters: [z.object({ owner, repo, sha })]. *)
Record Args : Type := { owner : string; repo : string; sha : string }.

(** [fetchCommitDiff.execute]. *)
Definition fetchCommitDiff (w : World Args string) (token : string) (a : Args) : M string :=
  response <-
    fetch w
      (template [api; "/repos/"; owner a; "/"; repo a; "/commits/"; sha a])
      {| method := None;
         headers := [("Accept", "application/vnd.github.v3.diff");
                     ("Authorization", template ["Bearer "; token])] |} ;;
  if negb (ok response)
  then throw (Js.Error (template ["Failed to fetch commit diff for "; sha a;
                                  ": "; Js.show_number (status response);
                                  " - "; statusText response]))
  else ret (text response).

Definition review_system : string :=
  lines
    [ "You are an AI assistant that reviews code changes in a commit.";
      "        - Summarize key modifications.";
      "        - Flag potential security issues or code smells.";
      "        - Suggest best practices or improvements where relevant.";
      "        - Be concise but thorough in your review." ].

Definition review_prompt (owner repo sha : string) : string :=
  lines
    [ "";
      template ["        The commit to analyze is "; sha; " in the "; owner; "/"; repo; " repository."];
      template ["        If you need the diff, call the "; dq; "fetchCommitDiff"; dq; " tool with:"];
      "        {";
      template ["          "; dq; "owner"; dq; ": "; dq; owner; dq; ","];
      template ["          "; dq; "repo"; dq; ": "; dq; repo; dq; ","];
      template ["          "; dq; "sha"; dq; ": "; dq; sha; dq];
      "        }.";
      "        " ].

Definition review_options (owner repo sha : string) : GenerateOptions :=
  {| model := "gpt-4o";
     system := review_system;
     prompt := review_prompt owner repo sha;
     tools := ["fetchCommitDiff"];
     maxSteps := 2 |}.

Definition compare_url (owner repo : string) (base head : option string) : string :=
  template [api; "/repos/"; owner; "/"; repo; "/compare/"; Js.show base; "..."; Js.show head].

Definition compare_init (token : string) : RequestInit :=
  {| method := None;
     headers := [("Accept", "application/vnd.github.v3+json");
                 ("Authorization", template ["Bearer "; token])] |}.

(** The first half of [runCommitReview]'s try block: the value of
    [commitsToReview] when the loop starts. *)
Definition commitsToReview (w : World Args string) (env : Env) (owner repo token : string)
  : M (list string) :=
  let commitRange := SEMAPHORE_GIT_COMMIT_RANGE env in
  if Js.truthy commitRange && Js.includes "..." (Js.show commitRange)
  then
    let (base, head) := Js.destructure2 (Js.split "..." (Js.show commitRange)) in
    compareResponse <- fetch w (compare_url owner repo base head) (compare_init token) ;;
    if negb (ok compareResponse)
    then throw (Js.Error (template ["Failed to compare commits: ";
                                    Js.show_number (status compareResponse);
                                    " - "; statusText compareResponse]))
    else
      compareData <- response_json compareResponse ;;
      match compareData with
      | CompareData (Some commits) =>
          let shas := map Github.sha commits in
          if (List.length shas =? 0)%nat
          then throw (Js.Error "No commits available in the comparison data.")
          else ret shas
      | CompareData None | CommitList _ =>
          throw (Js.Error "No commits found in the specified commit range.")
      end
  else
    let singleCommit := Js.or_else commitRange (SEMAPHORE_GIT_SHA env) in
    if negb (Js.truthy singleCommit)
    then throw (Js.Error "No commit or commit range found in environment variables.")
    else ret [Js.show singleCommit].

(** The banner that opens the review of one commit. *)
Definition banner (sha : string) : string := template ["--- Review for commit "; sha; " ---"].

(** What the loop prints for one commit and the answer of its session. *)
Definition report (reviewed : string * string) : list string :=
  [banner (fst reviewed); snd reviewed; "---------------------------------"].

(** The body of the [for] loop. *)
Definition review_one (w : World Args string) (owner repo token sha : string) : M unit :=
  answer <- generateText w (review_options owner repo sha) (fetchCommitDiff w token) ;;
  console_log (banner sha) ;;
  console_log answer ;;
  console_log "---------------------------------".

(** The try block of [runCommitReview]. *)
Definition runCommitReview_try (w : World Args string) (env : Env) (owner repo token : string)
  : M unit :=
  shas <- commitsToReview w env owner repo token ;;
  console_log "=== AI Commit-by-Commit Review ===" ;;
  for_of shas (review_one w owner repo token) ;;
  console_log "=================================".

Definition runCommitReview (w : World Args string) (env : Env) (owner repo token : string)
  : M unit :=
  try_catch
    (runCommitReview_try w env owner repo token)
    (fun error => console_error "Error running commit-by-commit review agent:" (Some error)).

Definition main (env : Env) (w : World Args string) : Run :=
  if negb (Js.truthy (GITHUB_OWNER env))
  then uncaught (Js.Error "Environment variable GITHUB_OWNER is not set.")
  else if negb (Js.truthy (GITHUB_REPO env))
  then uncaught (Js.Error "Environment variable GITHUB_REPO is not set.")
  else if negb (Js.truthy (GITHUB_TOKEN env))
  then uncaught (Js.Error "Environment variable GITHUB_TOKEN is not set.")
  else
    settle (runCommitReview w env (Js.show (GITHUB_OWNER env)) (Js.show (GITHUB_REPO env))
              (Js.show (GITHUB_TOKEN env))).

End Commit.

(** ** src/release.ts *)

Module Release.

(** The tool's parameters:
    [z.object({ owner, repo, perPage: z.number().optional().default(10) })]. *)
Record Args : Type := { owner : string; repo : string; perPage : option Z }.

(** [fetchCommits.execute], after the schema has filled in the default. *)
Definition fetchCommits (w : World Args (list string)) (token : string) (a : Args)
  : M (list string) :=
  let perPage := match perPage a with Some n => n | None => 10%Z end in
  response <-
    fetch w
      (template [api; "/repos/"; owner a; "/"; repo a; "/commits?per_page="; Js.show_number perPage])
      {| method := None;
         headers := [("Authorization", template ["Bearer "; token])] |} ;;
  if negb (ok response)
  then throw (Js.Error (template ["Failed to fetch commits: ";
                                  Js.show_number (status response);
                                  " - "; statusText response]))
  else
    data <- response_json response ;;
    match data with
    | CommitList entries => ret (map Github.message entries)
    | CompareData _ => throw (Js.TypeError "data.map is not a function")
    end.

Definition notes_system : string :=
  lines
    [ "";
      "        You are an AI assistant that organizes and creates release notes.";
      "        - Read commit messages.";
      "        - Categorize them (Features, Fixes, Docs, etc.).";
      "        - Provide a concise, Markdown-friendly summary of changes.";
      "        - Omit trivial or merge commits if irrelevant.";
      "      " ].

Definition notes_prompt (owner repo : string) : string :=
  lines
    [ "";
      template ["        We need release notes for the latest commits in "; owner; "/"; repo; "."];
      template ["        To get them, call the "; dq; "fetchCommits"; dq; " tool. Summarize the commit messages as release notes."];
      "      " ].

Definition notes_options (owner repo : string) : GenerateOptions :=
  {| model := "gpt-4o";
     system := notes_system;
     prompt := notes_prompt owner repo;
     tools := ["fetchCommits"];
     maxSteps := 2 |}.

(** The try block of [generateReleaseNotes]. *)
Definition generateReleaseNotes_try (w : World Args (list string)) (owner repo token : string)
  : M unit :=
  answer <- generateText w (notes_options owner repo) (fetchCommits w token) ;;
  console_log "=== AI-Generated Release Notes ===" ;;
  console_log answer ;;
  console_log "==================================".

Definition generateReleaseNotes (w : World Args (list string)) (owner repo token : string)
  : M unit :=
  try_catch
    (generateReleaseNotes_try w owner repo token)
    (fun error => console_error "Error generating release notes:" (Some error)).

Definition main (env : Env) (w : World Args (list string)) : Run :=
  if negb (Js.truthy (GITHUB_OWNER env)) || negb (Js.truthy (GITHUB_REPO env))
     || negb (Js.truthy (GITHUB_TOKEN env))
  then uncaught (Js.Error "Missing required environment variables for GitHub access.")
  else if negb (Js.truthy (OPENAI_API_KEY env))
  then uncaught (Js.Error "Missing OPENAI_API_KEY environment variable.")
  else
    settle (generateReleaseNotes w (Js.show (GITHUB_OWNER env)) (Js.show (GITHUB_REPO env))
              (Js.show (GITHUB_TOKEN env))).

End Release.

(** ** Vocabulary of the properties *)

(** The three values every script requires are set and not empty. *)
Definition config_ok (env : Env) : Prop :=
  Js.truthy (GITHUB_OWNER env) = true /\
  Js.truthy (GITHUB_REPO env) = true /\
  Js.truthy (GITHUB_TOKEN env) = true.

(** One of them is absent (or empty). *)
Definition config_missing (env : Env) : Prop :=
  Js.truthy (GITHUB_OWNER env) = false \/
  Js.truthy (GITHUB_REPO env) = false \/
  Js.truthy (GITHUB_TOKEN env) = false.

(** The run ended on an uncaught configuration error, with a non-zero
    status, and nothing was requested from the network. *)
Definition aborted_before_network (r : Run) : Prop :=
  (exists msg, outcome r = Uncaught (Js.Error msg)) /\
  exit_status (outcome r) <> 0%Z /\
  network_calls (trace r) = 0%nat.

(** The run is the try block [body] under a handler that logs under
    [label]: it ends normally, with status 0, and an error thrown by the
    body is the last thing written, on standard error. *)
Definition caught_and_logged {A} (body : M A) (label : string) (r : Run) : Prop :=
  outcome r = Finished /\
  exit_status (outcome r) = 0%Z /\
  match body [] with
  | (evs, Normal _) => trace r = evs
  | (evs, Throw e) => trace r = evs ++ [EStderr label (Some e)]
  end.

(** A decimal numeral: one digit or more, and nothing else. *)
Definition is_numeral (s : string) : bool :=
  negb (s =? "") && forallb (fun c => match Js.digit c with Some _ => true | None => false end)
    (list_ascii_of_string s).

(** The request [fetchPullRequestDiff] is expected to issue for pull
    request 42 of acme/widgets. *)
Definition pull_42_request (token : string) : Request :=
  {| url := "https://api.github.com/repos/acme/widgets/pulls/42";
     init := {| method := None;
                headers := [("Accept", "application/vnd.github.v3.diff");
                            ("Authorization", String.append "Bearer " token)] |} |}.

(** The range names two ends: it is set and contains the separator. *)
Definition has_separator (range : option string) : bool :=
  match range with
  | Some s => Js.includes "..." s
  | None => false
  end.

(** The request to the compare endpoint for the range [s]. *)
Definition compare_request (env : Env) (s : string) : Request :=
  let (base, head) := Js.destructure2 (Js.split "..." s) in
  {| url := Commit.compare_url (Js.show (GITHUB_OWNER env)) (Js.show (GITHUB_REPO env)) base head;
     init := Commit.compare_init (Js.show (GITHUB_TOKEN env)) |}.

(** [commitsToReview] under the configuration of [env], at the start of
    the run. *)
Definition resolution (w : World Commit.Args string) (env : Env)
  : list Event * completion (list string) :=
  Commit.commitsToReview w env (Js.show (GITHUB_OWNER env)) (Js.show (GITHUB_REPO env))
    (Js.show (GITHUB_TOKEN env)) [].

Definition commit_label : string := "Error running commit-by-commit review agent:".

(** The text of [rest] up to its first separator, all of it when it
    has none. *)
Definition up_to_separator (rest : string) : string :=
  match Js.cut "..." rest with
  | Some (h, _) => h
  | None => rest
  end.

(** [s] is [base], the separator, [rest], and the separator does not
    occur earlier in [s]. *)
Definition first_occurrence (s base rest : string) : Prop :=
  s = String.append base (String.append "..." rest) /\
  forall a b, s = String.append a (String.append "..." b) ->
              String.length base <= String.length a.

(** The reading of the range the spec gives: cut once, at the first
    separator, into two components that are both non-empty. *)
Definition split_in_two_nonempty (s : string) : Prop :=
  exists base head,
    first_occurrence s base head /\ base <> "" /\ head <> "" /\
    Js.destructure2 (Js.split "..." s) = (Some base, Some head).

(** Events that are all requests to the host. *)
Definition only_requests (evs : list Event) : Prop :=
  Forall (fun e => exists r, e = EFetch r) evs.

(** The options of the session that reviews [sha]. *)
Definition commit_options (env : Env) (sha : string) : GenerateOptions :=
  Commit.review_options (Js.show (GITHUB_OWNER env)) (Js.show (GITHUB_REPO env)) sha.

(** The session opened with [o] in the world [w], with the commit tool
    registered. *)
Definition commit_session (w : World Commit.Args string) (env : Env) (o : GenerateOptions)
  : M string :=
  generateText w o (Commit.fetchCommitDiff w (Js.show (GITHUB_TOKEN env))).

(** The body of the review loop under the configuration of [env]. *)
Definition review_commit (w : World Commit.Args string) (env : Env) : string -> M unit :=
  Commit.review_one w (Js.show (GITHUB_OWNER env)) (Js.show (GITHUB_REPO env))
    (Js.show (GITHUB_TOKEN env)).

(** Whenever it is opened, the session resolves with a text. *)
Definition session_returns (w : World Commit.Args string) (env : Env) (o : GenerateOptions)
  : Prop :=
  forall h, exists evs t, commit_session w env o h = (evs, Normal t).

(** Whenever it is opened, the session rejects. *)
Definition session_fails (w : World Commit.Args string) (env : Env) (o : GenerateOptions)
  : Prop :=
  forall h, exists evs e, commit_session w env o h = (evs, Throw e).

Definition review_header : string := "=== AI Commit-by-Commit Review ===".

Definition review_footer : string := "=================================".

(** The reports of the commits [shas], in order, as far as [answers] go. *)
Definition transcript (shas answers : list string) : list string :=
  flat_map Commit.report (combine shas answers).

(** The reading of the failure semantics the spec gives: every resolved
    commit whose session would return has its session opened and its
    report printed, whatever happens to the other commits. *)
Definition failures_isolated (w : World Commit.Args string) (env : Env) : Prop :=
  forall evs shas,
    resolution w env = (evs, Normal shas) ->
    forall sha,
      In sha shas ->
      session_returns w env (commit_options env sha) ->
      In (EGenerate (commit_options env sha)) (trace (Commit.main env w)) /\
      In (EStdout (Commit.banner sha)) (trace (Commit.main env w)).

(** Every event a computation emits, whatever the history, satisfies [P]. *)
Definition emits {A} (P : Event -> Prop) (m : M A) : Prop :=
  forall h, Forall P (fst (m h)).

(** A request as the scripts mean to send them: to a repository of the
    GitHub API, without an explicit method, with the bearer token. *)
Definition authorized (token : string) (r : Request) : Prop :=
  prefix "https://api.github.com/repos/" (url r) = true /\
  method (init r) = None /\
  In ("Authorization", String.append "Bearer " token) (headers (init r)).

(** A session as the scripts mean to open them. *)
Definition standard_session (o : GenerateOptions) : Prop :=
  model o = "gpt-4o" /\ maxSteps o = 2 /\ List.length (tools o) = 1.

Definition event_ok (token : string) (e : Event) : Prop :=
  match e with
  | EFetch r => authorized token r
  | EGenerate o => standard_session o
  | EStdout _ | EStderr _ _ => True
  end.

(** What a try block of the scripts may emit: authorized requests,
    standard sessions and lines on standard output. *)
Definition body_event (token : string) (e : Event) : Prop :=
  match e with
  | EFetch r => authorized token r
  | EGenerate o => standard_session o
  | EStdout _ => True
  | EStderr _ _ => False
  end.

Definition not_stderr (e : Event) : Prop :=
  match e with
  | EStderr _ _ => False
  | _ => True
  end.

(** Start-up validation of each script, as a function of the
    environment and the argument alone. *)
Definition pr_startup_ok (env : Env) (arg : option string) : bool :=
  Js.truthy (GITHUB_OWNER env) && Js.truthy (GITHUB_REPO env) && Js.truthy (GITHUB_TOKEN env)
  && Js.truthy arg && negb (Js.isNaN (Js.parseInt (Js.show arg))).

Definition commit_startup_ok (env : Env) : bool :=
  Js.truthy (GITHUB_OWNER env) && Js.truthy (GITHUB_REPO env) && Js.truthy (GITHUB_TOKEN env).

Definition release_startup_ok (env : Env) : bool :=
  Js.truthy (GITHUB_OWNER env) && Js.truthy (GITHUB_REPO env) && Js.truthy (GITHUB_TOKEN env)
  && Js.truthy (OPENAI_API_KEY env).

(** The value of a decimal numeral read most significant digit first,
    after the digits already read gave [acc]. *)
Fixpoint decimal_value (d : Decimal.uint) (acc : Z) : Z :=
  match d with
  | Decimal.Nil => acc
  | Decimal.D0 d => decimal_value d (10 * acc)
  | Decimal.D1 d => decimal_value d (10 * acc + 1)
  | Decimal.D2 d => decimal_value d (10 * acc + 2)
  | Decimal.D3 d => decimal_value d (10 * acc + 3)
  | Decimal.D4 d => decimal_value d (10 * acc + 4)
  | Decimal.D5 d => decimal_value d (10 * acc + 5)
  | Decimal.D6 d => decimal_value d (10 * acc + 6)
  | Decimal.D7 d => decimal_value d (10 * acc + 7)
  | Decimal.D8 d => decimal_value d (10 * acc + 8)
  | Decimal.D9 d => decimal_value d (10 * acc + 9)
  end%Z.

(** The name of the first required variable that is missing, in the
    order in which src/pr.ts and src/commit.ts check them. *)
Definition first_missing (env : Env) : option string :=
  if negb (Js.truthy (GITHUB_OWNER env)) then Some "GITHUB_OWNER"
  else if negb (Js.truthy (GITHUB_REPO env)) then Some "GITHUB_REPO"
  else if negb (Js.truthy (GITHUB_TOKEN env)) then Some "GITHUB_TOKEN"
  else None.



(** The request of [fetchCommits] for [n] commits per page. *)
Definition commits_request (token owner repo : string) (n : Z) : Request :=
  {| url := template [api; "/repos/"; owner; "/"; repo; "/commits?per_page="; Js.show_number n];
     init := {| method := None;
                headers := [("Authorization", template ["Bearer "; token])] |} |}.

(** [Number.isSafeInteger]: the integers that JavaScript numbers hold
    exactly, on which [Js.parseInt] and [Js.show_number] are what the
    runtime computes. *)
Definition safe_integer (z : Z) : Prop :=
  (- (2 ^ 53 - 1) <= z <= 2 ^ 53 - 1)%Z.

(** The reading of the ordering rule the spec gives: whenever the
    compare endpoint answers with success and a list of commits, the
    commits reviewed (the sessions opened) and reported (the reports
    printed between header and footer) are those of the whole list, in
    its order. *)
Definition review_follows_compare (w : World Commit.Args string) (env : Env) : Prop :=
  forall s resp cs,
    SEMAPHORE_GIT_COMMIT_RANGE env = Some s ->
    fetch_reply w [] (compare_request env s) = Resolved resp ->
    ok resp = true ->
    json_body resp = inr (CompareData (Some cs)) ->
    sessions (trace (Commit.main env w)) =
      map (commit_options env) (map Github.sha cs) /\
    exists answers,
      List.length answers = List.length cs /\
      stdout (trace (Commit.main env w)) =
        review_header :: transcript (map Github.sha cs) answers ++ [review_footer].

(** ** Scenarios

    Concrete environments and worlds on which the properties below are
    exercised. *)

Module Scenario.

Definition env_ok : Env :=
  {| GITHUB_OWNER := Some "acme";
     GITHUB_REPO := Some "widgets";
     GITHUB_TOKEN := Some "t0k3n";
     SEMAPHORE_GIT_SHA := Some "f00d";
     SEMAPHORE_GIT_COMMIT_RANGE := Some "abc...def";
     OPENAI_API_KEY := Some "sk-test" |}.

Definition with_range (range fallback : option string) : Env :=
  {| GITHUB_OWNER := Some "acme";
     GITHUB_REPO := Some "widgets";
     GITHUB_TOKEN := Some "t0k3n";
     SEMAPHORE_GIT_SHA := fallback;
     SEMAPHORE_GIT_COMMIT_RANGE := range;
     OPENAI_API_KEY := Some "sk-test" |}.

(** The access credential is not set. *)
Definition env_no_token : Env :=
  {| GITHUB_OWNER := Some "acme";
     GITHUB_REPO := Some "widgets";
     GITHUB_TOKEN := None;
     SEMAPHORE_GIT_SHA := Some "f00d";
     SEMAPHORE_GIT_COMMIT_RANGE := Some "abc...def";
     OPENAI_API_KEY := Some "sk-test" |}.

Definition response_ok (body : string) (j : Js.error + json) : Response :=
  {| ok := true; status := 200; statusText := "OK"; text := body; json_body := j |}.

Definition not_found : Response :=
  {| ok := false; status := 404; statusText := "Not Found"; text := "";
     json_body := inl (Js.SyntaxError "Unexpected end of JSON input") |}.

Definition three_commits : list Github.Commit :=
  [ {| Github.sha := "c1" |}; {| Github.sha := "c2" |}; {| Github.sha := "c3" |} ].

(** The host: the compare endpoint lists three commits; the diff of [c2]
    is a 404; every other diff is served. *)
Definition host (commits : option (list Github.Commit)) (_ : list Event) (r : Request) : fetched :=
  if prefix (template [api; "/repos/acme/widgets/compare/"]) (url r)
  then Resolved (response_ok "" (inr (CompareData commits)))
  else if url r =? template [api; "/repos/acme/widgets/commits/c2"]
  then Resolved not_found
  else Resolved (response_ok "diff --git a/x b/x" (inl (Js.SyntaxError "Unexpected token d"))).

(** A session that answers at once. *)
Definition answers {Args Res} (t : string) : Session Args Res := Final t.

(** A session that executes the tool once with [a]: it answers when the
    tool gave a result and rejects with the tool's error when it threw. *)
Definition calls_tool_once {Args Res} (a : Args) : Session Args Res :=
  CallTool a (fun r => match r with inr _ => Final "reviewed" | inl e => Reject e end).

(** A session that executes the tool twice with [a] before it answers. *)
Definition calls_tool_twice {Args Res} (a : Args) : Session Args Res :=
  CallTool a (fun _ => CallTool a (fun _ => Final "reviewed")).

(** Every pull request session asks twice for the diff of pull request 42. *)
Definition eager_world : World Pr.Args string :=
  {| fetch_reply := host None;
     generate_reply := fun _ _ =>
       calls_tool_twice {| Pr.owner := "acme"; Pr.repo := "widgets"; Pr.pullNumber := 42 |} |}.

(** The host is down: every request is answered 404. *)
Definition down_world : World Commit.Args string :=
  {| fetch_reply := fun _ _ => Resolved not_found;
     generate_reply := fun _ _ => answers "LGTM" |}.

(** The model-provider credential is not set. *)
Definition env_no_key : Env :=
  {| GITHUB_OWNER := Some "acme";
     GITHUB_REPO := Some "widgets";
     GITHUB_TOKEN := Some "t0k3n";
     SEMAPHORE_GIT_SHA := None;
     SEMAPHORE_GIT_COMMIT_RANGE := None;
     OPENAI_API_KEY := None |}.

(** The repository is not set (and neither is the token). *)
Definition env_no_repo : Env :=
  {| GITHUB_OWNER := Some "acme";
     GITHUB_REPO := None;
     GITHUB_TOKEN := None;
     SEMAPHORE_GIT_SHA := None;
     SEMAPHORE_GIT_COMMIT_RANGE := None;
     OPENAI_API_KEY := Some "sk-test" |}.

(** The host serves the messages of two commits. *)
Definition log_world : World Release.Args (list string) :=
  {| fetch_reply := fun _ _ =>
       Resolved (response_ok ""
                   (inr (CommitList [ {| Github.message := "feat: add x" |};
                                      {| Github.message := "fix: y" |} ])));
     generate_reply := fun _ _ => answers "## Features" |}.

(** Every pull request is reviewed without a tool call. *)
Definition pr_world : World Pr.Args string :=
  {| fetch_reply := host None; generate_reply := fun _ _ => answers "LGTM" |}.

(** The payload the commit prompt asks the model to call the tool with. *)
Definition diff_of (sha : string) : Commit.Args :=
  {| Commit.owner := "acme"; Commit.repo := "widgets"; Commit.sha := sha |}.

(** Every commit session asks for the diff of the commit its prompt names. *)
Definition commit_world (commits : option (list Github.Commit)) : World Commit.Args string :=
  {| fetch_reply := host commits;
     generate_reply := fun _ o =>
       if o.(prompt) =? Commit.review_prompt "acme" "widgets" "c1"
       then calls_tool_once (diff_of "c1")
       else if o.(prompt) =? Commit.review_prompt "acme" "widgets" "c2"
       then calls_tool_once (diff_of "c2")
       else calls_tool_once (diff_of "c3") |}.

(** Every commit session answers without a tool call. *)
Definition calm_world (commits : option (list Github.Commit)) : World Commit.Args string :=
  {| fetch_reply := host commits; generate_reply := fun _ _ => answers "LGTM" |}.

Definition release_world : World Release.Args (list string) :=
  {| fetch_reply := host None; generate_reply := fun _ _ => answers "## Features" |}.

End Scenario.

(** * Properties *)

Unset Implicit Arguments.

Example split_abc_def : Js.split "..." "abc...def" = ["abc"; "def"].
Proof. reflexivity. Qed.

Example split_three : Js.split "..." "a...b...c" = ["a"; "b"; "c"].
Proof. reflexivity. Qed.

Example split_four_dots : Js.split "..." "a....b" = ["a"; ".b"].
Proof. reflexivity. Qed.

Example split_leading : Js.split "..." "...def" = [""; "def"].
Proof. reflexivity. Qed.

Example parseInt_examples :
  Js.parseInt "42" = Some 42%Z /\ Js.parseInt "  -7x" = Some (-7)%Z /\
  Js.parseInt "12abc" = Some 12%Z /\ Js.parseInt "abc" = None /\
  Js.parseInt "" = None /\ Js.parseInt "-" = None.
Proof. repeat split; reflexivity. Qed.

Example show_number_42 : Js.show_number 42 = "42".
Proof. reflexivity. Qed.


(** ** The computations *)

Lemma bind_throw {A B} (m : M A) (f : A -> M B) h evs e :
  m h = (evs, Throw e) -> bind m f h = (evs, Throw e).
Proof.
  intros Hm. unfold bind. rewrite Hm. reflexivity.
Qed.

(** A function whose whole body is a try block with a logging handler
    never rejects. *)
Lemma settle_try_catch_unit (body : M unit) (label : string) :
  caught_and_logged body label
    (settle (try_catch body (fun e => console_error label (Some e)))).
Proof.
  unfold caught_and_logged, settle, try_catch.
  destruct (body []) as [evs [v | e]]; simpl; auto.
Qed.

(** ** Start-up *)

(** C8. When the owner, the repository or the access token is absent
    from the environment, each of the three scripts stops on an uncaught
    configuration error at the top of the module: the exit status is not
    zero and the run has issued no request and opened no session. *)
Theorem missing_configuration_aborts_before_network (env : Env) :
  config_missing env ->
  (forall arg w, aborted_before_network (Pr.main env arg w)) /\
  (forall w, aborted_before_network (Commit.main env w)) /\
  (forall w, aborted_before_network (Release.main env w)).
Proof.
  unfold config_missing, aborted_before_network, Pr.main, Commit.main, Release.main.
  intros Hmiss.
  destruct (Js.truthy (GITHUB_OWNER env)), (Js.truthy (GITHUB_REPO env)),
    (Js.truthy (GITHUB_TOKEN env));
    try (exfalso; intuition discriminate);
    repeat split; intros; simpl; try (eexists; reflexivity); try discriminate; reflexivity.
Qed.

Lemma missing_configuration_aborts_before_network_witness :
  config_missing Scenario.env_no_token /\
  aborted_before_network (Pr.main Scenario.env_no_token (Some "42") Scenario.pr_world) /\
  aborted_before_network
    (Commit.main Scenario.env_no_token (Scenario.calm_world (Some Scenario.three_commits))) /\
  aborted_before_network (Release.main Scenario.env_no_token Scenario.release_world).
Proof.
  assert (Hmiss : config_missing Scenario.env_no_token)
    by (right; right; reflexivity).
  split; [exact Hmiss |].
  destruct (missing_configuration_aborts_before_network _ Hmiss) as [Hpr [Hcommit Hrelease]].
  split; [apply Hpr | split; [apply Hcommit | apply Hrelease]].
Defined.

(** ** The diff tool of src/pr.ts *)

Lemma template_bearer (token : string) :
  template ["Bearer "; token] = String.append "Bearer " token.
Proof.
  unfold template. simpl. destruct token; reflexivity.
Qed.

(** C7. Executed with owner acme, repo widgets and pullNumber 42, the
    tool emits exactly one event, a request without an explicit method
    (a GET) to https://api.github.com/repos/acme/widgets/pulls/42 with
    the diff Accept header and the bearer token; it returns the body of
    the response when the response is ok, throws when it is not, and
    rethrows what [fetch] rejected with. *)
Theorem fetchPullRequestDiff_acme_widgets_42 (w : World Pr.Args string) (token : string)
    (h : list Event) :
  let a := {| Pr.owner := "acme"; Pr.repo := "widgets"; Pr.pullNumber := 42 |} in
  let req := pull_42_request token in
  fst (Pr.fetchPullRequestDiff w token a h) = [EFetch req] /\
  requests (fst (Pr.fetchPullRequestDiff w token a h)) = [req] /\
  http_method req = "GET" /\
  url req = String.append api "/repos/acme/widgets/pulls/42" /\
  snd (Pr.fetchPullRequestDiff w token a h) =
    match fetch_reply w h req with
    | Rejected e => Throw e
    | Resolved r =>
        if ok r then Normal (text r)
        else Throw (Js.Error (template ["Failed to fetch PR diff for #42: ";
                                        Js.show_number (status r); " - "; statusText r]))
    end.
Proof.
  intros a req.
  assert (Hreq : {| url := template [api; "/repos/"; Pr.owner a; "/"; Pr.repo a; "/pulls/";
                                     Js.show_number (Pr.pullNumber a)];
                    init := {| method := None;
                               headers := [("Accept", "application/vnd.github.v3.diff");
                                           ("Authorization", template ["Bearer "; token])] |} |}
                 = req).
  { unfold req, pull_42_request. rewrite template_bearer. reflexivity. }
  unfold Pr.fetchPullRequestDiff, bind, fetch. rewrite Hreq.
  destruct (fetch_reply w h req) as [e | r].
  - repeat split; reflexivity.
  - destruct (ok r); repeat split; reflexivity.
Qed.

(** ** The argument of src/pr.ts *)

Lemma parseInt_NaN (s : string) : Js.isNaN (Js.parseInt s) = true -> Js.parseInt s = None.
Proof.
  destruct (Js.parseInt s); [discriminate | reflexivity].
Qed.

(** C9, as the code has it. When the positional argument is missing or
    empty, or [parseInt(arg, 10)] is NaN (no decimal digit follows the
    optional white space and sign), the run ends with status 1 and no
    network activity; with a complete configuration it has written
    exactly one line, the usage or the validation message, on standard
    error before [process.exit(1)]. *)
Theorem invalid_pull_number_exits_before_network (env : Env) (arg : option string)
    (w : World Pr.Args string) :
  Js.truthy arg = false \/ Js.isNaN (Js.parseInt (Js.show arg)) = true ->
  let r := Pr.main env arg w in
  network_calls (trace r) = 0%nat /\
  exit_status (outcome r) = 1%Z /\
  (config_ok env ->
   outcome r = Exited 1 /\
   (trace r = [EStderr "Usage: npx tsx --env-file=.env src/pr.ts <pull-number>" None] \/
    trace r = [EStderr (template ["Invalid pull request number: "; Js.show arg]) None])).
Proof.
  intros Harg r. subst r. unfold Pr.main, config_ok.
  destruct (Js.truthy (GITHUB_OWNER env)); simpl;
    [| split; [| split]; try reflexivity; intros [H _]; discriminate].
  destruct (Js.truthy (GITHUB_REPO env)); simpl;
    [| split; [| split]; try reflexivity; intros [_ [H _]]; discriminate].
  destruct (Js.truthy (GITHUB_TOKEN env)); simpl;
    [| split; [| split]; try reflexivity; intros [_ [_ H]]; discriminate].
  destruct (Js.truthy arg) eqn:Ht; simpl.
  - destruct Harg as [H | H]; [discriminate |].
    rewrite (parseInt_NaN _ H). simpl. split; [| split]; auto.
  - split; [| split]; auto.
Qed.

Lemma invalid_pull_number_exits_before_network_witness :
  Js.isNaN (Js.parseInt (Js.show (Some "abc"))) = true /\
  let r := Pr.main Scenario.env_ok (Some "abc") Scenario.pr_world in
  network_calls (trace r) = 0%nat /\
  exit_status (outcome r) = 1%Z /\
  (config_ok Scenario.env_ok ->
   outcome r = Exited 1 /\
   (trace r = [EStderr "Usage: npx tsx --env-file=.env src/pr.ts <pull-number>" None] \/
    trace r = [EStderr (template ["Invalid pull request number: "; Js.show (Some "abc")]) None])).
Proof.
  split; [reflexivity |].
  apply (invalid_pull_number_exits_before_network Scenario.env_ok (Some "abc") Scenario.pr_world).
  right; reflexivity.
Defined.

(** C9, as the spec words it, fails: [12abc] is not a number, yet
    [parseInt] reads the 12 in front of it, no message is printed, the
    review of pull request 12 starts (a session is opened) and the
    process ends with status 0. *)
Lemma non_numeric_argument_accepted :
  let r := Pr.main Scenario.env_ok (Some "12abc") Scenario.pr_world in
  is_numeral "12abc" = false /\
  config_ok Scenario.env_ok /\
  stderr (trace r) = [] /\
  sessions (trace r) = [Pr.review_options "acme" "widgets" 12] /\
  network_calls (trace r) = 1%nat /\
  exit_status (outcome r) = 0%Z.
Proof.
  vm_compute. repeat split; reflexivity.
Qed.

(** ** The top-level handlers *)

(** C10. Once start-up validation has passed, each script is one call
    of a function whose whole body is a try block: whatever the block
    throws (a failed fetch, a failed resolution, a rejected session) is
    written to standard error by the handler, and the process ends
    normally, with status 0. *)
Theorem post_startup_failures_logged_exit_zero (env : Env) :
  config_ok env ->
  let owner := Js.show (GITHUB_OWNER env) in
  let repo := Js.show (GITHUB_REPO env) in
  let token := Js.show (GITHUB_TOKEN env) in
  (forall arg n w,
      Js.truthy arg = true -> Js.parseInt (Js.show arg) = Some n ->
      caught_and_logged (Pr.runCodeReview_try w owner repo token n)
        "Error running code review agent:" (Pr.main env arg w)) /\
  (forall w,
      caught_and_logged (Commit.runCommitReview_try w env owner repo token)
        "Error running commit-by-commit review agent:" (Commit.main env w)) /\
  (forall w,
      Js.truthy (OPENAI_API_KEY env) = true ->
      caught_and_logged (Release.generateReleaseNotes_try w owner repo token)
        "Error generating release notes:" (Release.main env w)).
Proof.
  intros [Ho [Hr Ht]] owner repo token. split; [| split].
  - intros arg n w Harg Hn. unfold Pr.main. rewrite Ho, Hr, Ht, Harg, Hn. simpl.
    apply settle_try_catch_unit.
  - intros w. unfold Commit.main. rewrite Ho, Hr, Ht. simpl.
    apply settle_try_catch_unit.
  - intros w Hk. unfold Release.main. rewrite Ho, Hr, Ht, Hk. simpl.
    apply settle_try_catch_unit.
Qed.

Lemma post_startup_failures_logged_exit_zero_witness :
  config_ok Scenario.env_ok /\
  caught_and_logged
    (Commit.runCommitReview_try (Scenario.commit_world (Some Scenario.three_commits))
       Scenario.env_ok "acme" "widgets" "t0k3n")
    "Error running commit-by-commit review agent:"
    (Commit.main Scenario.env_ok (Scenario.commit_world (Some Scenario.three_commits))).
Proof.
  assert (Hok : config_ok Scenario.env_ok) by (repeat split; reflexivity).
  split; [exact Hok |].
  exact (proj1 (proj2 (post_startup_failures_logged_exit_zero _ Hok))
           (Scenario.commit_world (Some Scenario.three_commits))).
Defined.

(** A 404 on the diff of the second of three commits: the error is on
    standard error and the status is 0. *)
Example failed_fetch_exits_zero :
  let r := Commit.main Scenario.env_ok (Scenario.commit_world (Some Scenario.three_commits)) in
  stderr (trace r) =
    [(commit_label, Some (Js.Error "Failed to fetch commit diff for c2: 404 - Not Found"))] /\
  exit_status (outcome r) = 0%Z.
Proof. vm_compute. split; reflexivity. Qed.

(** ** Resolution of the commits to review *)

Lemma includes_nonempty (s : string) : Js.includes "..." s = true -> (s =? "") = false.
Proof.
  destruct s; [discriminate | reflexivity].
Qed.

Lemma range_condition (range : option string) :
  Js.truthy range && Js.includes "..." (Js.show range) = has_separator range.
Proof.
  destruct range as [s |]; simpl; [| reflexivity].
  destruct (Js.includes "..." s) eqn:Hi.
  - rewrite (includes_nonempty _ Hi). reflexivity.
  - apply andb_false_r.
Qed.

Lemma main_config_ok (env : Env) (w : World Commit.Args string) :
  config_ok env ->
  Commit.main env w =
    settle (Commit.runCommitReview w env (Js.show (GITHUB_OWNER env))
              (Js.show (GITHUB_REPO env)) (Js.show (GITHUB_TOKEN env))).
Proof.
  intros [Ho [Hr Ht]]. unfold Commit.main. rewrite Ho, Hr, Ht. reflexivity.
Qed.

(** When the resolution throws, the run is what the resolution emitted
    followed by the handler's line. *)
Lemma main_resolution_throws (env : Env) (w : World Commit.Args string) evs e :
  config_ok env ->
  resolution w env = (evs, Throw e) ->
  Commit.main env w =
    {| trace := evs ++ [EStderr commit_label (Some e)]; outcome := Finished |}.
Proof.
  intros Hok Hres. rewrite (main_config_ok env w Hok).
  unfold settle, Commit.runCommitReview, try_catch, Commit.runCommitReview_try.
  unfold resolution in Hres. rewrite (@bind_throw _ _ _ _ _ _ _ Hres). reflexivity.
Qed.

(** Without a separator, no request: the range, else the fallback, else
    an error. *)
Lemma commitsToReview_single (env : Env) (w : World Commit.Args string)
    (owner repo token : string) (h : list Event) :
  has_separator (SEMAPHORE_GIT_COMMIT_RANGE env) = false ->
  Commit.commitsToReview w env owner repo token h =
    (if Js.truthy (SEMAPHORE_GIT_COMMIT_RANGE env)
     then ([], Normal [Js.show (SEMAPHORE_GIT_COMMIT_RANGE env)])
     else if Js.truthy (SEMAPHORE_GIT_SHA env)
     then ([], Normal [Js.show (SEMAPHORE_GIT_SHA env)])
     else ([], Throw (Js.Error "No commit or commit range found in environment variables."))).
Proof.
  intros Hsep. unfold Commit.commitsToReview.
  rewrite range_condition, Hsep.
  unfold Js.or_else. destruct (Js.truthy (SEMAPHORE_GIT_COMMIT_RANGE env)) eqn:Hr; simpl.
  - rewrite Hr. reflexivity.
  - destruct (Js.truthy (SEMAPHORE_GIT_SHA env)); reflexivity.
Qed.

(** C4. When the range does not contain the separator, the list of
    commits to review is the range itself if it is set and not empty,
    else the fallback SHA if that is set and not empty, in both cases a
    list of one element resolved without any request; when neither is
    available the resolution throws, the handler logs the error and the
    run opens no session. *)
Theorem single_commit_resolution (env : Env) (w : World Commit.Args string)
    (owner repo token : string) (h : list Event) :
  let range := SEMAPHORE_GIT_COMMIT_RANGE env in
  let fallback := SEMAPHORE_GIT_SHA env in
  has_separator range = false ->
  Commit.commitsToReview w env owner repo token h =
    (if Js.truthy range then ([], Normal [Js.show range])
     else if Js.truthy fallback then ([], Normal [Js.show fallback])
     else ([], Throw (Js.Error "No commit or commit range found in environment variables."))) /\
  (config_ok env -> Js.truthy range = false -> Js.truthy fallback = false ->
   let r := Commit.main env w in
   sessions (trace r) = [] /\
   network_calls (trace r) = 0%nat /\
   stderr (trace r) =
     [(commit_label, Some (Js.Error "No commit or commit range found in environment variables."))]).
Proof.
  intros range fallback Hsep.
  split; [apply (commitsToReview_single env w owner repo token h Hsep) |].
  intros Hok Hr Hf r. subst r.
  rewrite (main_resolution_throws env w []
             (Js.Error "No commit or commit range found in environment variables.") Hok).
  - repeat split; reflexivity.
  - unfold resolution. rewrite (commitsToReview_single env w _ _ _ [] Hsep).
    fold range. fold fallback. rewrite Hr, Hf. reflexivity.
Qed.

Lemma single_commit_resolution_witness :
  has_separator
    (SEMAPHORE_GIT_COMMIT_RANGE (Scenario.with_range (Some "abc123") (Some "f00d"))) = false /\
  Commit.commitsToReview (Scenario.calm_world None)
    (Scenario.with_range (Some "abc123") (Some "f00d")) "acme" "widgets" "t0k3n" [] =
    ([], Normal ["abc123"]).
Proof.
  split; [reflexivity |].
  exact (proj1 (@single_commit_resolution (Scenario.with_range (Some "abc123") (Some "f00d"))
                  (Scenario.calm_world None) "acme" "widgets" "t0k3n" [] eq_refl)).
Defined.

Example fallback_sha_is_used :
  resolution (Scenario.calm_world None) (Scenario.with_range None (Some "f00d")) =
    ([], Normal ["f00d"]) /\
  resolution (Scenario.calm_world None) (Scenario.with_range (Some "") (Some "f00d")) =
    ([], Normal ["f00d"]).
Proof. split; reflexivity. Qed.

Example no_commit_specified :
  let r := Commit.main (Scenario.with_range None None) (Scenario.calm_world None) in
  trace r =
    [EStderr commit_label
       (Some (Js.Error "No commit or commit range found in environment variables."))] /\
  outcome r = Finished.
Proof. split; reflexivity. Qed.

(** With a separator in the range, the resolution starts with the
    request to the compare endpoint. *)
Lemma resolution_with_separator (env : Env) (w : World Commit.Args string) (s : string) :
  SEMAPHORE_GIT_COMMIT_RANGE env = Some s ->
  Js.includes "..." s = true ->
  resolution w env =
    ([EFetch (compare_request env s)],
     match fetch_reply w [] (compare_request env s) with
     | Rejected e => Throw e
     | Resolved resp =>
         if ok resp then
           match json_body resp with
           | inl e => Throw e
           | inr (CompareData (Some commits)) =>
               match commits with
               | [] => Throw (Js.Error "No commits available in the comparison data.")
               | _ :: _ => Normal (map Github.sha commits)
               end
           | inr _ => Throw (Js.Error "No commits found in the specified commit range.")
           end
         else Throw (Js.Error (template ["Failed to compare commits: ";
                                         Js.show_number (status resp);
                                         " - "; statusText resp]))
     end).
Proof.
  intros Hrange Hinc.
  assert (Hc : Js.truthy (Some s) && Js.includes "..." (Js.show (Some s)) = true)
    by (rewrite range_condition; exact Hinc).
  unfold resolution, Commit.commitsToReview, compare_request.
  rewrite Hrange, Hc. change (Js.show (Some s)) with s.
  destruct (Js.destructure2 (Js.split "..." s)) as [base head].
  unfold bind, fetch. simpl app.
  destruct (fetch_reply w [] _) as [e | resp]; [reflexivity |].
  destruct (ok resp); simpl negb; cbv iota; [| reflexivity].
  unfold response_json.
  destruct (json_body resp) as [e | [[[| c cs] |] | entries]]; reflexivity.
Qed.

(** C5. When the body of the compare response has no [commits] field
    or an empty [commits] list, the resolution throws after that one
    request; the handler logs the error and the run ends without having
    opened a session for any commit. *)
Theorem empty_comparison_starts_no_session (env : Env) (w : World Commit.Args string)
    (s : string) (resp : Response) :
  config_ok env ->
  SEMAPHORE_GIT_COMMIT_RANGE env = Some s ->
  Js.includes "..." s = true ->
  fetch_reply w [] (compare_request env s) = Resolved resp ->
  json_body resp = inr (CompareData None) \/ json_body resp = inr (CompareData (Some [])) ->
  exists msg,
    resolution w env = ([EFetch (compare_request env s)], Throw (Js.Error msg)) /\
    (ok resp = true ->
     msg = "No commits found in the specified commit range." \/
     msg = "No commits available in the comparison data.") /\
    let r := Commit.main env w in
    trace r = [EFetch (compare_request env s); EStderr commit_label (Some (Js.Error msg))] /\
    sessions (trace r) = [] /\
    stdout (trace r) = [] /\
    outcome r = Finished.
Proof.
  intros Hok Hrange Hinc Hreply Hbody.
  pose proof (resolution_with_separator env w s Hrange Hinc) as Hres.
  rewrite Hreply in Hres.
  destruct (ok resp); destruct Hbody as [Hb | Hb]; try rewrite Hb in Hres;
    eexists; (split; [exact Hres |]);
    (split; [intros Hresp; try discriminate Hresp; auto |]);
    rewrite (main_resolution_throws env w _ _ Hok Hres); repeat split; reflexivity.
Qed.

Lemma empty_comparison_starts_no_session_witness :
  config_ok Scenario.env_ok /\
  exists msg,
    resolution (Scenario.calm_world (Some [])) Scenario.env_ok =
      ([EFetch (compare_request Scenario.env_ok "abc...def")], Throw (Js.Error msg)) /\
    (true = true ->
     msg = "No commits found in the specified commit range." \/
     msg = "No commits available in the comparison data.") /\
    let r := Commit.main Scenario.env_ok (Scenario.calm_world (Some [])) in
    trace r = [EFetch (compare_request Scenario.env_ok "abc...def");
               EStderr commit_label (Some (Js.Error msg))] /\
    sessions (trace r) = [] /\
    stdout (trace r) = [] /\
    outcome r = Finished.
Proof.
  assert (Hok : config_ok Scenario.env_ok) by (repeat split; reflexivity).
  split; [exact Hok |].
  apply (empty_comparison_starts_no_session Scenario.env_ok (Scenario.calm_world (Some []))
           "abc...def" (Scenario.response_ok "" (inr (CompareData (Some []))))
           Hok eq_refl eq_refl eq_refl).
  right; reflexivity.
Defined.

Example absent_commits_field :
  trace (Commit.main Scenario.env_ok (Scenario.calm_world None)) =
    [EFetch (compare_request Scenario.env_ok "abc...def");
     EStderr commit_label (Some (Js.Error "No commits found in the specified commit range."))].
Proof. reflexivity. Qed.

(** ** Splitting the range *)

Lemma append_empty_r (s : string) : String.append s "" = s.
Proof.
  induction s as [| c s IH]; simpl; [reflexivity | rewrite IH; reflexivity].
Qed.

Lemma append_assoc (a b c : string) :
  String.append (String.append a b) c = String.append a (String.append b c).
Proof.
  induction a as [| x a IH]; simpl; [reflexivity | rewrite IH; reflexivity].
Qed.

Lemma prefix_drop (sep s : string) :
  prefix sep s = true -> s = String.append sep (Js.drop (String.length sep) s).
Proof.
  revert s. induction sep as [| a sep IH]; intros s H.
  - destruct s; reflexivity.
  - destruct s as [| b s]; simpl in H; [discriminate |].
    destruct (ascii_dec a b) as [-> |]; [| discriminate].
    simpl. rewrite <- (IH _ H). reflexivity.
Qed.

Lemma prefix_append (sep s : string) : prefix sep (String.append sep s) = true.
Proof.
  induction sep as [| a sep IH]; simpl.
  - destruct s; reflexivity.
  - destruct (ascii_dec a a); [exact IH | congruence].
Qed.

(** Stepping over [k] characters is dropping them. *)
Lemma split_scan_skip (sep s : string) (k : nat) (cur : string) :
  Js.split_scan sep s k cur = Js.split_scan sep (Js.drop k s) 0 cur.
Proof.
  revert k. induction s as [| c s IH]; intros k.
  - destruct k; reflexivity.
  - destruct k; [reflexivity |]. simpl. apply IH.
Qed.

(** The scan cuts at the first occurrence and goes on behind it. *)
Lemma split_scan_cut (sep s cur : string) :
  sep <> "" ->
  Js.split_scan sep s 0 cur =
    match Js.cut sep s with
    | Some (a, b) => String.append cur a :: Js.split_scan sep b 0 ""
    | None => [String.append cur s]
    end.
Proof.
  intros Hsep. revert cur. induction s as [| c s IH]; intros cur.
  - simpl. destruct sep; [congruence |]. simpl. rewrite append_empty_r. reflexivity.
  - cbn [Js.split_scan Js.cut].
    destruct (prefix sep (String c s)) eqn:Hp.
    + rewrite append_empty_r, split_scan_skip.
      destruct sep as [| a sep]; [congruence |].
      simpl. rewrite Nat.sub_0_r. reflexivity.
    + rewrite IH. destruct (Js.cut sep s) as [[a b] |].
      * rewrite append_assoc. reflexivity.
      * rewrite append_assoc. reflexivity.
Qed.

Lemma split_cut (sep s : string) :
  sep <> "" ->
  Js.split sep s =
    match Js.cut sep s with
    | Some (a, b) => a :: Js.split sep b
    | None => [s]
    end.
Proof.
  intros Hsep. unfold Js.split. rewrite (split_scan_cut sep s "" Hsep).
  destruct (Js.cut sep s) as [[a b] |]; reflexivity.
Qed.

Lemma includes_cut (sep s : string) :
  Js.includes sep s = true -> exists a b, Js.cut sep s = Some (a, b).
Proof.
  induction s as [| c s IH]; cbn [Js.includes Js.cut]; intros H.
  - rewrite orb_false_r in H. rewrite H. eauto.
  - destruct (prefix sep (String c s)); [eauto |].
    cbn [orb] in H. destruct (IH H) as [a [b Hab]]. rewrite Hab. eauto.
Qed.

(** What [cut] returns is a decomposition of the string ... *)
Lemma cut_append (sep s a b : string) :
  Js.cut sep s = Some (a, b) -> s = String.append a (String.append sep b).
Proof.
  revert a. induction s as [| c s IH]; intros a H; cbn [Js.cut] in H.
  - destruct (prefix sep "") eqn:Hp; [| discriminate].
    injection H as <- <-. apply (prefix_drop _ _ Hp).
  - destruct (prefix sep (String c s)) eqn:Hp.
    + injection H as <- <-. apply (prefix_drop _ _ Hp).
    + destruct (Js.cut sep s) as [[a0 b0] |]; [| discriminate].
      injection H as <- <-. simpl. rewrite <- (IH a0 eq_refl). reflexivity.
Qed.

(** ... at the first occurrence of the separator. *)
Lemma cut_first (sep s a b : string) :
  Js.cut sep s = Some (a, b) ->
  forall a' b', s = String.append a' (String.append sep b') ->
                String.length a <= String.length a'.
Proof.
  revert a. induction s as [| c s IH]; intros a H a' b' Hs; cbn [Js.cut] in H.
  - destruct (prefix sep ""); [| discriminate]. injection H as <- <-. simpl. lia.
  - destruct (prefix sep (String c s)) eqn:Hp.
    + injection H as <- <-. simpl. lia.
    + destruct (Js.cut sep s) as [[a0 b0] |] eqn:Hc; [| discriminate].
      injection H as <- <-.
      destruct a' as [| c' a'].
      * simpl in Hs. rewrite Hs, prefix_append in Hp. discriminate.
      * simpl in Hs. injection Hs as _ Hs. simpl.
        specialize (IH a0 eq_refl a' b' Hs). lia.
Qed.

Lemma separator_nonempty : "..." <> "".
Proof. discriminate. Qed.

(** C2, as the code has it. For a range that contains the separator,
    [base] is the text before the first occurrence and [head] is the
    text between the first occurrence and the next one (the rest of the
    string when there is no other); either may be empty. These two are
    what the request to the compare endpoint is built from, and
    [abc...def] gives base [abc] and head [def]. *)
Theorem range_split_at_separators (env : Env) (w : World Commit.Args string) (s : string) :
  SEMAPHORE_GIT_COMMIT_RANGE env = Some s ->
  Js.includes "..." s = true ->
  (exists base rest,
      first_occurrence s base rest /\
      Js.destructure2 (Js.split "..." s) = (Some base, Some (up_to_separator rest)) /\
      fst (resolution w env) =
        [EFetch {| url := Commit.compare_url (Js.show (GITHUB_OWNER env))
                            (Js.show (GITHUB_REPO env))
                            (Some base) (Some (up_to_separator rest));
                   init := Commit.compare_init (Js.show (GITHUB_TOKEN env)) |}]) /\
  Js.destructure2 (Js.split "..." "abc...def") = (Some "abc", Some "def").
Proof.
  intros Hrange Hinc. split; [| reflexivity].
  destruct (includes_cut _ _ Hinc) as [base [rest Hcut]].
  exists base, rest.
  assert (Hd : Js.destructure2 (Js.split "..." s) = (Some base, Some (up_to_separator rest))).
  { rewrite (split_cut "..." s separator_nonempty), Hcut.
    rewrite (split_cut "..." rest separator_nonempty). unfold up_to_separator.
    destruct (Js.cut "..." rest) as [[h t] |]; reflexivity. }
  split; [| split].
  - split; [apply (cut_append _ _ _ _ Hcut) | apply (cut_first _ _ _ _ Hcut)].
  - exact Hd.
  - rewrite (resolution_with_separator env w s Hrange Hinc).
    unfold compare_request. rewrite Hd. reflexivity.
Qed.

Lemma range_split_at_separators_witness :
  Js.includes "..." "abc...def" = true /\
  (exists base rest,
      first_occurrence "abc...def" base rest /\
      Js.destructure2 (Js.split "..." "abc...def") = (Some base, Some (up_to_separator rest)) /\
      fst (resolution (Scenario.calm_world (Some Scenario.three_commits)) Scenario.env_ok) =
        [EFetch {| url := Commit.compare_url "acme" "widgets"
                            (Some base) (Some (up_to_separator rest));
                   init := Commit.compare_init "t0k3n" |}]).
Proof.
  split; [reflexivity |].
  exact (proj1 (range_split_at_separators Scenario.env_ok
                  (Scenario.calm_world (Some Scenario.three_commits))
                  "abc...def" eq_refl eq_refl)).
Defined.

(** C2, as the spec words it, fails. A range that starts with the
    separator has an empty base, and in a range with two separators the
    head stops at the second one instead of running to the end. *)
Lemma range_not_split_in_two_nonempty :
  Js.includes "..." "...def" = true /\
  ~ split_in_two_nonempty "...def" /\
  Js.destructure2 (Js.split "..." "...def") = (Some "", Some "def") /\
  Js.includes "..." "a...b...c" = true /\
  ~ split_in_two_nonempty "a...b...c" /\
  Js.destructure2 (Js.split "..." "a...b...c") = (Some "a", Some "b") /\
  requests (trace (Commit.main (Scenario.with_range (Some "a...b...c") None)
                     (Scenario.calm_world None))) =
    [{| url := "https://api.github.com/repos/acme/widgets/compare/a...b";
        init := Commit.compare_init "t0k3n" |}].
Proof.
  split; [reflexivity |]. split.
  { intros [base [head [_ [Hb [_ Hd]]]]]. vm_compute in Hd. congruence. }
  split; [reflexivity |]. split; [reflexivity |]. split.
  { intros [base [head [[Hs Hfirst] [_ [_ Hd]]]]]. vm_compute in Hd.
    injection Hd as <- <-. discriminate Hs. }
  split; reflexivity.
Qed.

(** ** Sessions and the review loop *)

Lemma sessions_app (a b : list Event) : sessions (a ++ b) = sessions a ++ sessions b.
Proof. apply flat_map_app. Qed.

Lemma stdout_app (a b : list Event) : stdout (a ++ b) = stdout a ++ stdout b.
Proof. apply flat_map_app. Qed.

Lemma stderr_app (a b : list Event) : stderr (a ++ b) = stderr a ++ stderr b.
Proof. apply flat_map_app. Qed.

Lemma only_requests_quiet (evs : list Event) :
  only_requests evs -> sessions evs = [] /\ stdout evs = [] /\ stderr evs = [].
Proof.
  induction 1 as [| e evs [r ->] _ IH]; [repeat split |]. exact IH.
Qed.

Lemma fetchCommitDiff_only_requests (w : World Commit.Args string) token a h :
  only_requests (fst (Commit.fetchCommitDiff w token a h)).
Proof.
  unfold Commit.fetchCommitDiff, bind, fetch.
  destruct (fetch_reply w h _) as [e | r]; simpl.
  - repeat constructor. eexists; reflexivity.
  - destruct (ok r); simpl; repeat constructor; eexists; reflexivity.
Qed.

Section SessionEvents.

Context {Args Res : Type}.
Variable w : World Args Res.
Variable execute : Args -> M Res.
Hypothesis execute_only_requests : forall a h, only_requests (fst (execute a h)).

(** A session adds nothing to the trace but the requests of its tool. *)
Lemma run_session_only_requests (s : Session Args Res) (h : list Event) :
  only_requests (fst (run_session execute s h)).
Proof.
  revert h. induction s as [t | e | a k IH]; intros h; simpl.
  - constructor.
  - constructor.
  - pose proof (execute_only_requests a h) as Ha.
    destruct (execute a h) as [evs r]. simpl in Ha.
    specialize (IH (match r with Normal v => inr v | Throw e => inl e end) (h ++ evs)).
    destruct (run_session execute _ (h ++ evs)) as [evs' r']. simpl in *.
    apply Forall_app. split; assumption.
Qed.

Lemma generateText_events (o : GenerateOptions) (h : list Event) :
  exists evs,
    fst (generateText w o execute h) = EGenerate o :: evs /\ only_requests evs.
Proof.
  unfold generateText.
  pose proof (run_session_only_requests (generate_reply w h o) (h ++ [EGenerate o])) as Hs.
  destruct (run_session execute _ _) as [evs r]. exists evs. split; [reflexivity | exact Hs].
Qed.

End SessionEvents.

Section ReviewLoop.

Variable w : World Commit.Args string.
Variable env : Env.

(** One round of the loop: the session is opened; if it returns, the
    report of the commit is printed; if it rejects, nothing is. *)
Lemma review_one_cases (sha : string) (h : list Event) :
  (exists evs t,
      commit_session w env (commit_options env sha) h = (evs, Normal t) /\
      review_commit w env sha h = (evs ++ map EStdout (Commit.report (sha, t)), Normal tt)) \/
  (exists evs e,
      commit_session w env (commit_options env sha) h = (evs, Throw e) /\
      review_commit w env sha h = (evs, Throw e)).
Proof.
  unfold review_commit, Commit.review_one, commit_session, commit_options.
  destruct (generateText w _ _ h) as [evs [t | e]] eqn:Hg.
  - left. exists evs, t. split; [reflexivity |].
    unfold bind at 1. rewrite Hg. reflexivity.
  - right. exists evs, e. split; [reflexivity |].
    unfold bind at 1. rewrite Hg. reflexivity.
Qed.

Lemma session_projections (sha : string) (h : list Event) evs r :
  commit_session w env (commit_options env sha) h = (evs, r) ->
  sessions evs = [commit_options env sha] /\ stdout evs = [] /\ stderr evs = [].
Proof.
  intros Hs.
  destruct (generateText_events w (Commit.fetchCommitDiff w (Js.show (GITHUB_TOKEN env)))
              (fetchCommitDiff_only_requests w _) (commit_options env sha) h)
    as [evs' [Hevs Hq]].
  unfold commit_session in Hs. rewrite Hs in Hevs. simpl in Hevs. subst evs.
  destruct (only_requests_quiet _ Hq) as [H1 [H2 H3]].
  simpl. rewrite H1, H2, H3. repeat split.
Qed.

Lemma for_of_cons (sha : string) (rest : list string) (h : list Event) :
  for_of (sha :: rest) (review_commit w env) h =
    match review_commit w env sha h with
    | (evs, Normal _) =>
        (evs ++ fst (for_of rest (review_commit w env) (h ++ evs)),
         snd (for_of rest (review_commit w env) (h ++ evs)))
    | (evs, Throw e) => (evs, Throw e)
    end.
Proof.
  simpl. unfold bind. destruct (review_commit w env sha h) as [evs [[] | e]]; [| reflexivity].
  destruct (for_of rest (review_commit w env) (h ++ evs)); reflexivity.
Qed.

(** Whatever the sessions do, the loop opens the sessions of a prefix of
    the list, in the order of the list, and prints the reports of a
    prefix of those. *)
Lemma for_of_review_prefix (shas : list string) (h : list Event) :
  exists k answers,
    List.length answers <= k <= List.length shas /\
    sessions (fst (for_of shas (review_commit w env) h)) =
      map (commit_options env) (firstn k shas) /\
    stdout (fst (for_of shas (review_commit w env) h)) = transcript shas answers /\
    match snd (for_of shas (review_commit w env) h) with
    | Normal _ =>
        List.length answers = List.length shas /\
        stderr (fst (for_of shas (review_commit w env) h)) = []
    | Throw _ => True
    end.
Proof.
  revert h. induction shas as [| sha rest IH]; intros h.
  - exists 0, []. simpl. repeat split; auto.
  - rewrite for_of_cons.
    destruct (review_one_cases sha h) as [[evs [t [Hs Hr]]] | [evs [e [Hs Hr]]]]; rewrite Hr.
    + destruct (session_projections sha h _ _ Hs) as [H1 [H2 H3]].
      destruct (IH (h ++ evs ++ map EStdout (Commit.report (sha, t))))
        as [k [answers [Hk [Hses [Hout Hcompl]]]]].
      exists (S k), (t :: answers). cbn [fst snd].
      rewrite !sessions_app, !stdout_app, !stderr_app, H1, H2, H3, Hses, Hout.
      split; [simpl; lia |]. split; [reflexivity |]. split; [reflexivity |].
      destruct (snd (for_of rest (review_commit w env) _)); [| exact I].
      destruct Hcompl as [Hlen Herr]. rewrite Herr. split; [simpl; lia | reflexivity].
    + destruct (session_projections sha h _ _ Hs) as [H1 [H2 H3]].
      exists 1, []. cbn [fst snd]. rewrite H1, H2.
      split; [simpl; lia |]. repeat split.
Qed.

(** When every session returns, the loop runs to its end: a session for
    each commit and a report for each session, in the order of the list. *)
Lemma for_of_review_all (shas : list string) :
  (forall sha, In sha shas -> session_returns w env (commit_options env sha)) ->
  forall h, exists evs answers,
    for_of shas (review_commit w env) h = (evs, Normal tt) /\
    List.length answers = List.length shas /\
    sessions evs = map (commit_options env) shas /\
    stdout evs = transcript shas answers /\
    stderr evs = [].
Proof.
  induction shas as [| sha rest IH]; intros Hall h.
  - exists [], []. repeat split.
  - rewrite for_of_cons.
    destruct (Hall sha (or_introl eq_refl) h) as [evs0 [t0 Hs0]].
    destruct (review_one_cases sha h) as [[evs [t [Hs Hr]]] | [evs [e [Hs Hr]]]];
      [| rewrite Hs0 in Hs; discriminate].
    rewrite Hr.
    destruct (session_projections sha h _ _ Hs) as [H1 [H2 H3]].
    destruct (IH (fun x Hx => Hall x (or_intror Hx))
                (h ++ evs ++ map EStdout (Commit.report (sha, t))))
      as [evs' [answers [Hloop [Hlen [Hses [Hout Herr]]]]]].
    rewrite Hloop. cbn [fst snd].
    exists ((evs ++ map EStdout (Commit.report (sha, t))) ++ evs'), (t :: answers).
    rewrite !sessions_app, !stdout_app, !stderr_app, H1, H2, H3, Hses, Hout, Herr.
    repeat split. simpl. lia.
Qed.

(** When the sessions of [pre] return and the session of [bad] rejects,
    the loop ends at [bad]: nothing of [post] is touched. *)
Lemma for_of_review_stops (pre : list string) (bad : string) (post : list string) :
  (forall sha, In sha pre -> session_returns w env (commit_options env sha)) ->
  session_fails w env (commit_options env bad) ->
  forall h, exists evs answers e,
    for_of (pre ++ bad :: post) (review_commit w env) h = (evs, Throw e) /\
    List.length answers = List.length pre /\
    sessions evs = map (commit_options env) (pre ++ [bad]) /\
    stdout evs = transcript pre answers /\
    stderr evs = [].
Proof.
  induction pre as [| sha rest IH]; intros Hall Hbad h.
  - simpl app. rewrite for_of_cons.
    destruct (Hbad h) as [evs0 [e0 Hs0]].
    destruct (review_one_cases bad h) as [[evs [t [Hs Hr]]] | [evs [e [Hs Hr]]]];
      [rewrite Hs0 in Hs; discriminate |].
    rewrite Hr.
    destruct (session_projections bad h _ _ Hs) as [H1 [H2 H3]].
    exists evs, [], e. repeat split; assumption.
  - simpl app. rewrite for_of_cons.
    destruct (Hall sha (or_introl eq_refl) h) as [evs0 [t0 Hs0]].
    destruct (review_one_cases sha h) as [[evs [t [Hs Hr]]] | [evs [e [Hs Hr]]]];
      [| rewrite Hs0 in Hs; discriminate].
    rewrite Hr.
    destruct (session_projections sha h _ _ Hs) as [H1 [H2 H3]].
    destruct (IH (fun x Hx => Hall x (or_intror Hx)) Hbad
                (h ++ evs ++ map EStdout (Commit.report (sha, t))))
      as [evs' [answers [e [Hloop [Hlen [Hses [Hout Herr]]]]]]].
    rewrite Hloop. cbn [fst snd].
    exists ((evs ++ map EStdout (Commit.report (sha, t))) ++ evs'), (t :: answers), e.
    rewrite !sessions_app, !stdout_app, !stderr_app, H1, H2, H3, Hses, Hout, Herr.
    repeat split. simpl. lia.
Qed.

End ReviewLoop.

(** ** The whole run of src/commit.ts *)

(** The resolution emits nothing but its request, if any. *)
Lemma resolution_only_requests (w : World Commit.Args string) (env : Env) :
  only_requests (fst (resolution w env)).
Proof.
  destruct (has_separator (SEMAPHORE_GIT_COMMIT_RANGE env)) eqn:Hsep.
  - destruct (SEMAPHORE_GIT_COMMIT_RANGE env) as [s |] eqn:Hrange; [| discriminate].
    rewrite (resolution_with_separator env w s Hrange Hsep).
    repeat constructor. eexists; reflexivity.
  - unfold resolution. rewrite (commitsToReview_single env w _ _ _ [] Hsep).
    destruct (Js.truthy (SEMAPHORE_GIT_COMMIT_RANGE env)); [constructor |].
    destruct (Js.truthy (SEMAPHORE_GIT_SHA env)); constructor.
Qed.

(** Once the commits are resolved, the run is the header, the loop, and
    either the footer or the line of the handler. *)
Lemma main_after_resolution (w : World Commit.Args string) (env : Env) evs0 shas :
  config_ok env ->
  resolution w env = (evs0, Normal shas) ->
  exists h,
    Commit.main env w =
      match for_of shas (review_commit w env) h with
      | (evs, Normal _) =>
          {| trace := evs0 ++ [EStdout review_header] ++ evs ++ [EStdout review_footer];
             outcome := Finished |}
      | (evs, Throw e) =>
          {| trace := (evs0 ++ [EStdout review_header] ++ evs) ++ [EStderr commit_label (Some e)];
             outcome := Finished |}
      end.
Proof.
  intros Hok Hres. rewrite (main_config_ok env w Hok).
  exists (([] ++ evs0) ++ [EStdout review_header]).
  unfold settle, Commit.runCommitReview, try_catch, Commit.runCommitReview_try.
  unfold resolution in Hres. unfold bind at 1. rewrite Hres.
  unfold bind at 1. unfold console_log at 1. unfold bind at 1.
  destruct (for_of shas _ _) as [evs [[] | e]]; reflexivity.
Qed.

(** C6, as the code has it. When the compare endpoint answers with
    success and a non-empty list of commits, the commits to review are
    the identifiers of that list in its order. Whatever the sessions do, the sessions opened are
    those of a prefix of that list, in its order, and the reports
    printed follow the same order. When every session returns, there is
    one session and one report per commit of the list, in the order of
    the list, between the header and the footer. *)
Theorem compare_order_is_review_order (env : Env) (w : World Commit.Args string)
    (s : string) (resp : Response) (c : Github.Commit) (cs : list Github.Commit) :
  config_ok env ->
  SEMAPHORE_GIT_COMMIT_RANGE env = Some s ->
  Js.includes "..." s = true ->
  fetch_reply w [] (compare_request env s) = Resolved resp ->
  ok resp = true ->
  json_body resp = inr (CompareData (Some (c :: cs))) ->
  let shas := map Github.sha (c :: cs) in
  let r := Commit.main env w in
  resolution w env = ([EFetch (compare_request env s)], Normal shas) /\
  (exists k answers,
      List.length answers <= k <= List.length shas /\
      sessions (trace r) = map (commit_options env) (firstn k shas) /\
      (stdout (trace r) = review_header :: transcript shas answers \/
       stdout (trace r) = review_header :: transcript shas answers ++ [review_footer])) /\
  ((forall sha, In sha shas -> session_returns w env (commit_options env sha)) ->
   sessions (trace r) = map (commit_options env) shas /\
   stderr (trace r) = [] /\
   exists answers,
     List.length answers = List.length shas /\
     stdout (trace r) = review_header :: transcript shas answers ++ [review_footer]).
Proof.
  intros Hok Hrange Hinc Hreply Hresp Hbody shas r.
  assert (Hres : resolution w env = ([EFetch (compare_request env s)], Normal shas)).
  { rewrite (resolution_with_separator env w s Hrange Hinc), Hreply, Hresp, Hbody.
    reflexivity. }
  split; [exact Hres |].
  destruct (main_after_resolution w env _ _ Hok Hres) as [h Hmain].
  subst r. rewrite Hmain. clear Hmain. split.
  - destruct (for_of_review_prefix w env shas h) as [k [answers [Hk [Hses [Hout Hcompl]]]]].
    exists k, answers. split; [exact Hk |].
    destruct (for_of shas _ h) as [evs [[] | e]]; cbn [fst snd trace] in *.
    + rewrite !sessions_app, !stdout_app, Hses, Hout. simpl.
      rewrite app_nil_r. split; [reflexivity | right; reflexivity].
    + rewrite !sessions_app, !stdout_app, Hses, Hout. simpl.
      rewrite !app_nil_r. split; [reflexivity | left; reflexivity].
  - intros Hall.
    destruct (for_of_review_all w env shas Hall h)
      as [evs [answers [Hloop [Hlen [Hses [Hout Herr]]]]]].
    rewrite Hloop. cbn [trace].
    rewrite !sessions_app, !stdout_app, !stderr_app, Hses, Hout, Herr. simpl.
    rewrite app_nil_r. split; [reflexivity |]. split; [reflexivity |].
    exists answers. split; [exact Hlen | reflexivity].
Qed.

Lemma compare_order_is_review_order_witness :
  config_ok Scenario.env_ok /\
  let r := Commit.main Scenario.env_ok (Scenario.calm_world (Some Scenario.three_commits)) in
  sessions (trace r) = map (commit_options Scenario.env_ok) ["c1"; "c2"; "c3"] /\
  stderr (trace r) = [] /\
  exists answers,
    List.length answers = 3 /\
    stdout (trace r) = review_header :: transcript ["c1"; "c2"; "c3"] answers ++ [review_footer].
Proof.
  assert (Hok : config_ok Scenario.env_ok) by (repeat split; reflexivity).
  split; [exact Hok |].
  apply (proj2 (proj2 (compare_order_is_review_order Scenario.env_ok
                         (Scenario.calm_world (Some Scenario.three_commits)) "abc...def"
                         (Scenario.response_ok "" (inr (CompareData (Some Scenario.three_commits))))
                         {| Github.sha := "c1" |}
                         [ {| Github.sha := "c2" |}; {| Github.sha := "c3" |} ]
                         Hok eq_refl eq_refl eq_refl eq_refl eq_refl))).
  intros sha _ h. eexists. eexists. reflexivity.
Defined.

(** C6, as the spec words it, fails. The compare endpoint answers
    with success and lists c1, c2 and c3, but the session of c2 rejects
    (the diff of c2 is a 404): the sessions opened are those of c1 and
    c2 only, and the only report printed is that of c1, without a
    footer. The order is kept; the sequence is cut short. *)
Lemma compare_sequence_cut_short :
  let w := Scenario.commit_world (Some Scenario.three_commits) in
  let r := Commit.main Scenario.env_ok w in
  ~ review_follows_compare w Scenario.env_ok /\
  fetch_reply w [] (compare_request Scenario.env_ok "abc...def") =
    Resolved (Scenario.response_ok "" (inr (CompareData (Some Scenario.three_commits)))) /\
  sessions (trace r) = map (commit_options Scenario.env_ok) ["c1"; "c2"] /\
  stdout (trace r) = review_header :: transcript ["c1"; "c2"; "c3"] ["reviewed"].
Proof.
  intros w r. split; [| repeat split; reflexivity].
  intros Hclaim.
  destruct (Hclaim "abc...def"
              (Scenario.response_ok "" (inr (CompareData (Some Scenario.three_commits))))
              Scenario.three_commits eq_refl eq_refl eq_refl eq_refl) as [Hsessions _].
  apply (f_equal (@List.length GenerateOptions)) in Hsessions.
  vm_compute in Hsessions. discriminate Hsessions.
Qed.

(** ** A session that fails *)

(** C1, as the code has it. The loop has no handler of its own: when
    the session of one commit rejects (a failed diff fetch that the
    session passes on, or any other failure), the error reaches the one
    handler around the whole function, which logs it; the commits before
    it have been reviewed and reported in their order, and no session is
    opened for any commit after it. *)
Theorem first_failure_ends_the_review (env : Env) (w : World Commit.Args string)
    (evs0 : list Event) (pre : list string) (bad : string) (post : list string) :
  config_ok env ->
  resolution w env = (evs0, Normal (pre ++ bad :: post)) ->
  (forall sha, In sha pre -> session_returns w env (commit_options env sha)) ->
  session_fails w env (commit_options env bad) ->
  let r := Commit.main env w in
  exists answers e evs,
    List.length answers = List.length pre /\
    sessions (trace r) = map (commit_options env) (pre ++ [bad]) /\
    stdout (trace r) = review_header :: transcript pre answers /\
    trace r = evs ++ [EStderr commit_label (Some e)] /\
    stderr (trace r) = [(commit_label, Some e)] /\
    outcome r = Finished.
Proof.
  intros Hok Hres Hpre Hbad r.
  destruct (main_after_resolution w env _ _ Hok Hres) as [h Hmain].
  subst r. rewrite Hmain. clear Hmain.
  destruct (for_of_review_stops w env pre bad post Hpre Hbad h)
    as [evs [answers [e [Hloop [Hlen [Hses [Hout Herr]]]]]]].
  rewrite Hloop. cbn [trace outcome].
  pose proof (resolution_only_requests w env) as Hq. rewrite Hres in Hq.
  destruct (only_requests_quiet _ Hq) as [Hq1 [Hq2 Hq3]]. cbn [fst] in *.
  exists answers, e, (evs0 ++ [EStdout review_header] ++ evs).
  rewrite !sessions_app, !stdout_app, !stderr_app, Hses, Hout, Herr, Hq1, Hq2, Hq3.
  simpl. rewrite !app_nil_r.
  split; [exact Hlen |]. repeat split.
Qed.

Lemma first_failure_ends_the_review_witness :
  config_ok Scenario.env_ok /\
  let r := Commit.main Scenario.env_ok (Scenario.commit_world (Some Scenario.three_commits)) in
  exists answers e evs,
    List.length answers = 1 /\
    sessions (trace r) = map (commit_options Scenario.env_ok) ["c1"; "c2"] /\
    stdout (trace r) = review_header :: transcript ["c1"] answers /\
    trace r = evs ++ [EStderr commit_label (Some e)] /\
    stderr (trace r) = [(commit_label, Some e)] /\
    outcome r = Finished.
Proof.
  assert (Hok : config_ok Scenario.env_ok) by (repeat split; reflexivity).
  split; [exact Hok |].
  apply (first_failure_ends_the_review Scenario.env_ok
           (Scenario.commit_world (Some Scenario.three_commits))
           [EFetch (compare_request Scenario.env_ok "abc...def")] ["c1"] "c2" ["c3"] Hok eq_refl).
  - intros sha [<- | []] h. eexists. eexists. reflexivity.
  - intros h. eexists. eexists. reflexivity.
Defined.

(** C1, as the spec words it, fails. The compare endpoint lists c1, c2
    and c3; the diff of c2 is a 404 and its session rejects with the
    tool's error. The session of c3 would return, yet it is never
    opened and no report of c3 is printed: the run stops after c2. *)
Lemma later_commits_not_reviewed :
  let w := Scenario.commit_world (Some Scenario.three_commits) in
  let r := Commit.main Scenario.env_ok w in
  ~ failures_isolated w Scenario.env_ok /\
  resolution w Scenario.env_ok =
    ([EFetch (compare_request Scenario.env_ok "abc...def")], Normal ["c1"; "c2"; "c3"]) /\
  session_returns w Scenario.env_ok (commit_options Scenario.env_ok "c3") /\
  sessions (trace r) = map (commit_options Scenario.env_ok) ["c1"; "c2"] /\
  stdout (trace r) = review_header :: Commit.report ("c1", "reviewed") /\
  stderr (trace r) =
    [(commit_label, Some (Js.Error "Failed to fetch commit diff for c2: 404 - Not Found"))].
Proof.
  intros w r.
  assert (Hres : resolution w Scenario.env_ok =
                   ([EFetch (compare_request Scenario.env_ok "abc...def")],
                    Normal ["c1"; "c2"; "c3"])) by reflexivity.
  assert (Hc3 : session_returns w Scenario.env_ok (commit_options Scenario.env_ok "c3")).
  { intros h. eexists. eexists. reflexivity. }
  split; [| split; [exact Hres | split; [exact Hc3 | repeat split; reflexivity]]].
  intros Hiso.
  destruct (Hiso _ _ Hres "c3" (or_intror (or_intror (or_introl eq_refl))) Hc3) as [_ Hout].
  vm_compute in Hout.
  repeat (destruct Hout as [Hout | Hout]; [discriminate Hout |]).
  exact Hout.
Qed.

(** ** The step budget *)

(** Every session of the three scripts is opened with a step budget of
    2 and one registered tool. *)
Lemma step_budget_is_two (owner repo sha : string) (pullNumber : Z) :
  maxSteps (Pr.review_options owner repo pullNumber) = 2 /\
  maxSteps (Commit.review_options owner repo sha) = 2 /\
  maxSteps (Release.notes_options owner repo) = 2 /\
  tools (Pr.review_options owner repo pullNumber) = ["fetchPullRequestDiff"] /\
  tools (Commit.review_options owner repo sha) = ["fetchCommitDiff"] /\
  tools (Release.notes_options owner repo) = ["fetchCommits"].
Proof. repeat split. Qed.

(** The budget is enforced inside [generateText], not by the scripts:
    the tool's [execute] runs each time the session calls it, and each
    execution is one request. *)
Example tool_runs_when_called :
  requests (trace (Pr.main Scenario.env_ok (Some "42") Scenario.eager_world)) =
    [pull_42_request "t0k3n"; pull_42_request "t0k3n"].
Proof. reflexivity. Qed.

(** * Further properties of the scripts *)

(** ** What computations emit *)

Lemma emits_ret {A} (P : Event -> Prop) (a : A) : emits P (ret a).
Proof. intros h. constructor. Qed.

Lemma emits_throw {A} (P : Event -> Prop) (e : Js.error) : emits P (@throw A e).
Proof. intros h. constructor. Qed.

Lemma emits_bind {A B} (P : Event -> Prop) (m : M A) (f : A -> M B) :
  emits P m -> (forall a, emits P (f a)) -> emits P (bind m f).
Proof.
  intros Hm Hf h. unfold bind. specialize (Hm h).
  destruct (m h) as [evs [a | e]]; [| exact Hm].
  specialize (Hf a (h ++ evs)). destruct (f a (h ++ evs)) as [evs' r].
  apply Forall_app. split; assumption.
Qed.

Lemma emits_try_catch {A} (P : Event -> Prop) (body : M A) (handler : Js.error -> M A) :
  emits P body -> (forall e, emits P (handler e)) -> emits P (try_catch body handler).
Proof.
  intros Hb Hh h. unfold try_catch. specialize (Hb h).
  destruct (body h) as [evs [a | e]]; [exact Hb |].
  specialize (Hh e (h ++ evs)). destruct (handler e (h ++ evs)) as [evs' r].
  apply Forall_app. split; assumption.
Qed.

Lemma emits_console_log (P : Event -> Prop) (s : string) :
  P (EStdout s) -> emits P (console_log s).
Proof. intros Hp h. repeat constructor. exact Hp. Qed.

Lemma emits_console_error (P : Event -> Prop) (s : string) (e : option Js.error) :
  P (EStderr s e) -> emits P (console_error s e).
Proof. intros Hp h. repeat constructor. exact Hp. Qed.

Lemma emits_response_json (P : Event -> Prop) (r : Response) : emits P (response_json r).
Proof. intros h. constructor. Qed.

Lemma emits_for_of {A} (P : Event -> Prop) (xs : list A) (body : A -> M unit) :
  (forall x, emits P (body x)) -> emits P (for_of xs body).
Proof.
  intros Hb. induction xs as [| x rest IH]; simpl.
  - apply emits_ret.
  - apply emits_bind; [apply Hb | intros _; exact IH].
Qed.

Section Emitted.

Context {Args Res : Type}.
Variable w : World Args Res.
Variable P : Event -> Prop.

Lemma emits_fetch (u : string) (i : RequestInit) :
  P (EFetch {| url := u; init := i |}) -> emits P (fetch w u i).
Proof. intros Hp h. repeat constructor. exact Hp. Qed.

Variable execute : Args -> M Res.
Hypothesis execute_emits : forall a, emits P (execute a).

Lemma emits_run_session (s : Session Args Res) : emits P (run_session execute s).
Proof.
  induction s as [t | e | a k IH]; intros h; simpl.
  - constructor.
  - constructor.
  - pose proof (execute_emits a h) as Ha.
    destruct (execute a h) as [evs r]. simpl in Ha.
    specialize (IH (match r with Normal v => inr v | Throw e => inl e end) (h ++ evs)).
    destruct (run_session execute _ (h ++ evs)) as [evs' r']. simpl in *.
    apply Forall_app. split; assumption.
Qed.

Lemma emits_generateText (o : GenerateOptions) :
  P (EGenerate o) -> emits P (generateText w o execute).
Proof.
  intros Hp h. unfold generateText.
  pose proof (emits_run_session (generate_reply w h o) (h ++ [EGenerate o])) as Hs.
  destruct (run_session execute _ _) as [evs r]. simpl in *.
  constructor; assumption.
Qed.

End Emitted.

(** ** The three tools *)

Lemma prefix_api_repos (rest : list string) :
  prefix "https://api.github.com/repos/" (template (api :: "/repos/" :: rest)) = true.
Proof.
  assert (H : template (api :: "/repos/" :: rest) =
              String.append "https://api.github.com/repos/" (template rest))
    by (destruct rest; reflexivity).
  rewrite H. apply prefix_append.
Qed.

Lemma bearer_header (token : string) (others : list (string * string)) :
  In ("Authorization", String.append "Bearer " token)
     (others ++ [("Authorization", template ["Bearer "; token])]).
Proof.
  apply in_or_app. right. left. rewrite template_bearer. reflexivity.
Qed.

Lemma fetchPullRequestDiff_request (w : World Pr.Args string) (token : string)
    (a : Pr.Args) (h : list Event) :
  exists req,
    fst (Pr.fetchPullRequestDiff w token a h) = [EFetch req] /\ authorized token req.
Proof.
  unfold Pr.fetchPullRequestDiff, bind, fetch.
  eexists. split.
  - destruct (fetch_reply w h _) as [e | r]; [reflexivity |].
    destruct (ok r); reflexivity.
  - split; [apply prefix_api_repos | split; [reflexivity |]].
    apply (bearer_header token [("Accept", "application/vnd.github.v3.diff")]).
Qed.

Lemma fetchCommitDiff_request (w : World Commit.Args string) (token : string)
    (a : Commit.Args) (h : list Event) :
  exists req,
    fst (Commit.fetchCommitDiff w token a h) = [EFetch req] /\ authorized token req.
Proof.
  unfold Commit.fetchCommitDiff, bind, fetch.
  eexists. split.
  - destruct (fetch_reply w h _) as [e | r]; [reflexivity |].
    destruct (ok r); reflexivity.
  - split; [apply prefix_api_repos | split; [reflexivity |]].
    apply (bearer_header token [("Accept", "application/vnd.github.v3.diff")]).
Qed.

Lemma fetchCommits_request (w : World Release.Args (list string)) (token : string)
    (a : Release.Args) (h : list Event) :
  exists req,
    fst (Release.fetchCommits w token a h) = [EFetch req] /\ authorized token req.
Proof.
  unfold Release.fetchCommits, bind, fetch, response_json.
  eexists. split.
  - destruct (fetch_reply w h _) as [e | r]; [reflexivity |].
    destruct (ok r); [| reflexivity]. simpl.
    destruct (json_body r) as [e | [c | l]]; reflexivity.
  - split; [apply prefix_api_repos | split; [reflexivity |]].
    apply (bearer_header token []).
Qed.

(** X1. Each execution of a tool, whatever the arguments the model
    chose and whatever the host answers (success, error status, broken
    JSON, network failure), emits exactly one event: one authorized
    request. No tool retries and none writes to the console. *)
Theorem tools_issue_one_request (token : string) (h : list Event) :
  (forall w a, exists req,
      fst (Pr.fetchPullRequestDiff w token a h) = [EFetch req] /\ authorized token req) /\
  (forall w a, exists req,
      fst (Commit.fetchCommitDiff w token a h) = [EFetch req] /\ authorized token req) /\
  (forall w a, exists req,
      fst (Release.fetchCommits w token a h) = [EFetch req] /\ authorized token req).
Proof.
  split; [| split]; intros w a.
  - apply fetchPullRequestDiff_request.
  - apply fetchCommitDiff_request.
  - apply fetchCommits_request.
Qed.

(** ** What a whole run emits *)

Lemma emits_weaken {A} (P Q : Event -> Prop) (m : M A) :
  (forall e, P e -> Q e) -> emits P m -> emits Q m.
Proof.
  intros Hpq Hm h. eapply Forall_impl; [exact Hpq | apply Hm].
Qed.

Lemma body_event_ok (token : string) (e : Event) : body_event token e -> event_ok token e.
Proof. destruct e; simpl; auto. Qed.

Lemma body_event_not_stderr (token : string) (e : Event) : body_event token e -> not_stderr e.
Proof. destruct e; simpl; auto. Qed.

Lemma event_ok_projections (token : string) (evs : list Event) :
  Forall (event_ok token) evs ->
  Forall (authorized token) (requests evs) /\ Forall standard_session (sessions evs).
Proof.
  induction 1 as [| e evs He _ [IH1 IH2]]; [split; constructor |].
  destruct e; simpl in *; split; try constructor; assumption.
Qed.

Lemma not_stderr_quiet (evs : list Event) : Forall not_stderr evs -> stderr evs = [].
Proof.
  induction 1 as [| e evs He _ IH]; [reflexivity |].
  destruct e; simpl in *; try assumption. contradiction.
Qed.

Lemma runCodeReview_try_emits (w : World Pr.Args string) (owner repo token : string) (n : Z) :
  emits (body_event token) (Pr.runCodeReview_try w owner repo token n).
Proof.
  unfold Pr.runCodeReview_try. apply emits_bind.
  - apply emits_generateText; [| repeat split].
    intros a h. destruct (fetchPullRequestDiff_request w token a h) as [req [-> Hreq]].
    constructor; [exact Hreq | constructor].
  - intros answer. repeat (apply emits_bind; [| intros _]); apply emits_console_log; exact I.
Qed.

Lemma generateReleaseNotes_try_emits (w : World Release.Args (list string))
    (owner repo token : string) :
  emits (body_event token) (Release.generateReleaseNotes_try w owner repo token).
Proof.
  unfold Release.generateReleaseNotes_try. apply emits_bind.
  - apply emits_generateText; [| repeat split].
    intros a h. destruct (fetchCommits_request w token a h) as [req [-> Hreq]].
    constructor; [exact Hreq | constructor].
  - intros answer. repeat (apply emits_bind; [| intros _]); apply emits_console_log; exact I.
Qed.

Lemma commitsToReview_emits (w : World Commit.Args string) (env : Env)
    (owner repo token : string) :
  emits (body_event token) (Commit.commitsToReview w env owner repo token).
Proof.
  unfold Commit.commitsToReview.
  destruct (Js.truthy _ && Js.includes "..." _).
  - destruct (Js.destructure2 _) as [base head]. apply emits_bind.
    + apply emits_fetch. split; [apply prefix_api_repos | split; [reflexivity |]].
      apply (bearer_header token [("Accept", "application/vnd.github.v3+json")]).
    + intros resp. destruct (negb (ok resp)); [apply emits_throw |].
      apply emits_bind; [apply emits_response_json |].
      intros [[commits |] | entries]; try apply emits_throw.
      destruct (List.length (map Github.sha commits) =? 0)%nat;
        [apply emits_throw | apply emits_ret].
  - destruct (negb (Js.truthy _)); [apply emits_throw | apply emits_ret].
Qed.

Lemma review_one_emits (w : World Commit.Args string) (owner repo token sha : string) :
  emits (body_event token) (Commit.review_one w owner repo token sha).
Proof.
  unfold Commit.review_one. apply emits_bind.
  - apply emits_generateText; [| repeat split].
    intros a h. destruct (fetchCommitDiff_request w token a h) as [req [-> Hreq]].
    constructor; [exact Hreq | constructor].
  - intros answer. repeat (apply emits_bind; [| intros _]); apply emits_console_log; exact I.
Qed.

Lemma runCommitReview_try_emits (w : World Commit.Args string) (env : Env)
    (owner repo token : string) :
  emits (body_event token) (Commit.runCommitReview_try w env owner repo token).
Proof.
  unfold Commit.runCommitReview_try. apply emits_bind; [apply commitsToReview_emits |].
  intros shas. apply emits_bind; [apply emits_console_log; exact I |].
  intros _. apply emits_bind; [| intros _; apply emits_console_log; exact I].
  apply emits_for_of. intros sha. apply review_one_emits.
Qed.

Lemma settle_emits {A} (P : Event -> Prop) (m : M A) : emits P m -> Forall P (trace (settle m)).
Proof.
  intros Hm. unfold settle. specialize (Hm []).
  destruct (m []) as [evs [a | e]]; exact Hm.
Qed.

Lemma logged_emits (P : Event -> Prop) (token label : string) (body : M unit) :
  (forall e, body_event token e -> P e) ->
  (forall e, P (EStderr label (Some e))) ->
  emits (body_event token) body ->
  emits P (try_catch body (fun e => console_error label (Some e))).
Proof.
  intros Hbody Herr Hm. apply emits_try_catch.
  - apply (emits_weaken (body_event token)); assumption.
  - intros e. apply emits_console_error. apply Herr.
Qed.

(** Every event of every run of the three scripts is an authorized
    request, a standard session or a console line. *)
Lemma runs_emit_event_ok (env : Env) :
  let token := Js.show (GITHUB_TOKEN env) in
  (forall arg w, Forall (event_ok token) (trace (Pr.main env arg w))) /\
  (forall w, Forall (event_ok token) (trace (Commit.main env w))) /\
  (forall w, Forall (event_ok token) (trace (Release.main env w))).
Proof.
  intros token. split; [| split].
  - intros arg w. unfold Pr.main.
    repeat (match goal with |- context [if ?c then _ else _] => destruct c end;
            [try constructor |]); try (repeat constructor).
    destruct (Js.parseInt _); [| repeat constructor].
    apply settle_emits. apply (logged_emits _ token).
    + apply body_event_ok.
    + intros e. exact I.
    + apply runCodeReview_try_emits.
  - intros w. unfold Commit.main.
    repeat (match goal with |- context [if ?c then _ else _] => destruct c end;
            [try constructor |]); try (repeat constructor).
    apply settle_emits. apply (logged_emits _ token).
    + apply body_event_ok.
    + intros e. exact I.
    + apply runCommitReview_try_emits.
  - intros w. unfold Release.main.
    repeat (match goal with |- context [if ?c then _ else _] => destruct c end;
            [try constructor |]); try (repeat constructor).
    apply settle_emits. apply (logged_emits _ token).
    + apply body_event_ok.
    + intros e. exact I.
    + apply generateReleaseNotes_try_emits.
Qed.

(** X2. Every request of every run of the three scripts, those of the
    resolution and those of the tools inside the sessions alike, goes
    to a repository of the GitHub API, sets no method (a GET) and
    carries the bearer token of the environment. *)
Theorem every_request_is_authorized (env : Env) :
  let token := Js.show (GITHUB_TOKEN env) in
  (forall arg w, Forall (authorized token) (requests (trace (Pr.main env arg w)))) /\
  (forall w, Forall (authorized token) (requests (trace (Commit.main env w)))) /\
  (forall w, Forall (authorized token) (requests (trace (Release.main env w)))).
Proof.
  intros token. destruct (runs_emit_event_ok env) as [Hpr [Hcommit Hrelease]].
  split; [| split]; intros; apply (event_ok_projections token); auto.
Qed.

(** X3. Every session of every run of the three scripts is opened on
    the model gpt-4o with a step budget of 2 and exactly one tool
    registered, whatever the environment, the argument and the world. *)
Theorem every_session_is_standard (env : Env) :
  (forall arg w, Forall standard_session (sessions (trace (Pr.main env arg w)))) /\
  (forall w, Forall standard_session (sessions (trace (Commit.main env w)))) /\
  (forall w, Forall standard_session (sessions (trace (Release.main env w)))).
Proof.
  destruct (runs_emit_event_ok env) as [Hpr [Hcommit Hrelease]].
  split; [| split]; intros;
    apply (event_ok_projections (Js.show (GITHUB_TOKEN env))); auto.
Qed.

(** ** The scripts with a single session *)

Section SingleSession.

Context {Args Res : Type}.
Variable w : World Args Res.
Variable execute : Args -> M Res.
Hypothesis execute_only_requests : forall a h, only_requests (fst (execute a h)).

Variable o : GenerateOptions.
Variables header footer label : string.

(** A try block that opens one session and prints its answer between
    two banner lines, under a handler that logs: the session is opened
    once; either the three lines are on standard output and nothing is
    on standard error, or standard output is empty and the error is the
    one line on standard error. *)
Lemma single_session_run :
  let body :=
    bind (generateText w o execute)
      (fun answer =>
         bind (console_log header)
           (fun _ => bind (console_log answer) (fun _ => console_log footer))) in
  let r := settle (try_catch body (fun e => console_error label (Some e))) in
  sessions (trace r) = [o] /\
  outcome r = Finished /\
  ((exists answer, stdout (trace r) = [header; answer; footer] /\ stderr (trace r) = []) \/
   (exists e, stdout (trace r) = [] /\ stderr (trace r) = [(label, Some e)])).
Proof.
  intros body r.
  destruct (generateText_events w execute execute_only_requests o []) as [evs' [Hevs Hq]].
  destruct (only_requests_quiet _ Hq) as [H1 [H2 H3]].
  destruct (generateText w o execute []) as [evs [t | e]] eqn:Hg; simpl in Hevs; subst evs.
  - assert (Hrun : r = {| trace := (EGenerate o :: evs') ++
                                   [EStdout header; EStdout t; EStdout footer];
                          outcome := Finished |}).
    { subst r body. unfold settle, try_catch, bind. rewrite Hg. reflexivity. }
    rewrite Hrun. cbn [trace outcome].
    rewrite sessions_app, stdout_app, stderr_app. simpl. rewrite H1, H2, H3.
    split; [reflexivity |]. split; [reflexivity |]. left. exists t. split; reflexivity.
  - assert (Hrun : r = {| trace := (EGenerate o :: evs') ++ [EStderr label (Some e)];
                          outcome := Finished |}).
    { subst r body. unfold settle, try_catch, bind. rewrite Hg. reflexivity. }
    rewrite Hrun. cbn [trace outcome].
    rewrite sessions_app, stdout_app, stderr_app. simpl. rewrite H1, H2, H3.
    split; [reflexivity |]. split; [reflexivity |]. right. exists e. split; reflexivity.
Qed.

End SingleSession.

Lemma fetchPullRequestDiff_only_requests (w : World Pr.Args string) token a h :
  only_requests (fst (Pr.fetchPullRequestDiff w token a h)).
Proof.
  destruct (fetchPullRequestDiff_request w token a h) as [req [-> _]].
  repeat constructor. eexists; reflexivity.
Qed.

Lemma fetchCommits_only_requests (w : World Release.Args (list string)) token a h :
  only_requests (fst (Release.fetchCommits w token a h)).
Proof.
  destruct (fetchCommits_request w token a h) as [req [-> _]].
  repeat constructor. eexists; reflexivity.
Qed.

(** X4. A pull-request run that passes start-up opens exactly one
    session, on gpt-4o with the review instructions, the diff tool and
    a step budget of 2; its prompt names the number [parseInt] read
    whenever that number is a safe integer. Its output is all or
    nothing: either the summary (header, answer, footer) is on standard
    output and standard error is empty, or standard output is empty and
    the one line on standard error carries the error. *)
Theorem pull_request_review_all_or_nothing (env : Env) (arg : option string) (n : Z)
    (w : World Pr.Args string) :
  config_ok env ->
  Js.truthy arg = true ->
  Js.parseInt (Js.show arg) = Some n ->
  let r := Pr.main env arg w in
  (exists o,
      sessions (trace r) = [o] /\
      model o = "gpt-4o" /\
      system o = Pr.review_system /\
      tools o = ["fetchPullRequestDiff"] /\
      maxSteps o = 2 /\
      (safe_integer n ->
       prompt o = Pr.review_prompt (Js.show (GITHUB_OWNER env)) (Js.show (GITHUB_REPO env)) n)) /\
  outcome r = Finished /\
  ((exists answer,
       stdout (trace r) = ["=== AI Review Summary ==="; answer; "========================="] /\
       stderr (trace r) = []) \/
   (exists e,
       stdout (trace r) = [] /\
       stderr (trace r) = [("Error running code review agent:", Some e)])).
Proof.
  intros [Ho [Hr Ht]] Harg Hn r. subst r. unfold Pr.main.
  rewrite Ho, Hr, Ht, Harg, Hn. cbn [negb].
  destruct (single_session_run w (Pr.fetchPullRequestDiff w (Js.show (GITHUB_TOKEN env)))
              (fetchPullRequestDiff_only_requests w _)
              (Pr.review_options (Js.show (GITHUB_OWNER env)) (Js.show (GITHUB_REPO env)) n)
              "=== AI Review Summary ===" "========================="
              "Error running code review agent:") as [Hsessions Hrest].
  split; [| exact Hrest].
  eexists. split; [exact Hsessions |]. repeat split.
Qed.

Lemma pull_request_review_all_or_nothing_witness :
  config_ok Scenario.env_ok /\
  safe_integer 42 /\
  let r := Pr.main Scenario.env_ok (Some "42") Scenario.eager_world in
  (exists o,
      sessions (trace r) = [o] /\
      model o = "gpt-4o" /\
      system o = Pr.review_system /\
      tools o = ["fetchPullRequestDiff"] /\
      maxSteps o = 2 /\
      (safe_integer 42 -> prompt o = Pr.review_prompt "acme" "widgets" 42)) /\
  outcome r = Finished /\
  ((exists answer,
       stdout (trace r) = ["=== AI Review Summary ==="; answer; "========================="] /\
       stderr (trace r) = []) \/
   (exists e,
       stdout (trace r) = [] /\
       stderr (trace r) = [("Error running code review agent:", Some e)])).
Proof.
  assert (Hok : config_ok Scenario.env_ok) by (repeat split; reflexivity).
  split; [exact Hok |].
  split; [unfold safe_integer; lia |].
  exact (pull_request_review_all_or_nothing Scenario.env_ok (Some "42") 42
           Scenario.eager_world Hok eq_refl eq_refl).
Defined.

(** X5. A release-notes run that passes start-up opens exactly one
    session and its output is all or nothing: either the notes (header,
    answer, footer) are on standard output and standard error is empty,
    or standard output is empty and the one line on standard error
    carries the error. *)
Theorem release_notes_all_or_nothing (env : Env) (w : World Release.Args (list string)) :
  config_ok env ->
  Js.truthy (OPENAI_API_KEY env) = true ->
  let r := Release.main env w in
  sessions (trace r) =
    [Release.notes_options (Js.show (GITHUB_OWNER env)) (Js.show (GITHUB_REPO env))] /\
  outcome r = Finished /\
  ((exists answer,
       stdout (trace r) =
         ["=== AI-Generated Release Notes ==="; answer; "=================================="] /\
       stderr (trace r) = []) \/
   (exists e,
       stdout (trace r) = [] /\
       stderr (trace r) = [("Error generating release notes:", Some e)])).
Proof.
  intros [Ho [Hr Ht]] Hk r. subst r. unfold Release.main.
  rewrite Ho, Hr, Ht, Hk. cbn [negb orb].
  apply (single_session_run w (Release.fetchCommits w (Js.show (GITHUB_TOKEN env)))
           (fetchCommits_only_requests w _)).
Qed.

Lemma release_notes_all_or_nothing_witness :
  config_ok Scenario.env_ok /\
  let r := Release.main Scenario.env_ok Scenario.release_world in
  sessions (trace r) = [Release.notes_options "acme" "widgets"] /\
  outcome r = Finished /\
  ((exists answer,
       stdout (trace r) =
         ["=== AI-Generated Release Notes ==="; answer; "=================================="] /\
       stderr (trace r) = []) \/
   (exists e,
       stdout (trace r) = [] /\
       stderr (trace r) = [("Error generating release notes:", Some e)])).
Proof.
  assert (Hok : config_ok Scenario.env_ok) by (repeat split; reflexivity).
  split; [exact Hok |].
  exact (release_notes_all_or_nothing Scenario.env_ok Scenario.release_world Hok eq_refl).
Defined.

(** ** Standard error and the exit status *)

Lemma logged_run_stderr (token label : string) (body : M unit) :
  emits (body_event token) body ->
  List.length (stderr (trace (settle (try_catch body (fun e => console_error label (Some e))))))
  <= 1.
Proof.
  intros Hm. unfold settle, try_catch. specialize (Hm []).
  pose proof (not_stderr_quiet (fst (body []))
                (Forall_impl _ (body_event_not_stderr token) Hm)) as Hq.
  destruct (body []) as [evs [[] | e]]; simpl in *.
  - rewrite Hq. simpl. lia.
  - rewrite stderr_app, Hq. simpl. lia.
Qed.

(** X6. No run of any of the three scripts writes more than one line
    on standard error: the try blocks and the tools never write there,
    and each handler and each start-up check writes once at most. *)
Theorem at_most_one_error_line (env : Env) :
  (forall arg w, List.length (stderr (trace (Pr.main env arg w))) <= 1) /\
  (forall w, List.length (stderr (trace (Commit.main env w))) <= 1) /\
  (forall w, List.length (stderr (trace (Release.main env w))) <= 1).
Proof.
  split; [| split].
  - intros arg w. unfold Pr.main.
    repeat (match goal with |- context [if ?c then _ else _] => destruct c end;
            [simpl; lia |]).
    destruct (Js.parseInt _); [| simpl; lia].
    apply (logged_run_stderr (Js.show (GITHUB_TOKEN env))), runCodeReview_try_emits.
  - intros w. unfold Commit.main.
    repeat (match goal with |- context [if ?c then _ else _] => destruct c end;
            [simpl; lia |]).
    apply (logged_run_stderr (Js.show (GITHUB_TOKEN env))), runCommitReview_try_emits.
  - intros w. unfold Release.main.
    repeat (match goal with |- context [if ?c then _ else _] => destruct c end;
            [simpl; lia |]).
    apply (logged_run_stderr (Js.show (GITHUB_TOKEN env))), generateReleaseNotes_try_emits.
Qed.

Lemma logged_run_status (label : string) (body : M unit) :
  exit_status (outcome (settle (try_catch body (fun e => console_error label (Some e))))) = 0%Z.
Proof.
  destruct (settle_try_catch_unit body label) as [_ [H _]]. exact H.
Qed.

(** X7. The exit status of each script is decided by start-up
    validation alone: it is 0 when the required values are set (and, for
    the pull-request script, the argument is set and [parseInt] reads a
    number in it) and 1 otherwise, whatever the host and the model do
    afterwards. *)
Theorem exit_status_reports_startup_only (env : Env) :
  (forall arg w,
      exit_status (outcome (Pr.main env arg w)) = if pr_startup_ok env arg then 0%Z else 1%Z) /\
  (forall w,
      exit_status (outcome (Commit.main env w)) = if commit_startup_ok env then 0%Z else 1%Z) /\
  (forall w,
      exit_status (outcome (Release.main env w)) = if release_startup_ok env then 0%Z else 1%Z).
Proof.
  unfold pr_startup_ok, commit_startup_ok, release_startup_ok, Pr.main, Commit.main, Release.main.
  destruct (Js.truthy (GITHUB_OWNER env)), (Js.truthy (GITHUB_REPO env)),
    (Js.truthy (GITHUB_TOKEN env)); cbn [negb andb orb];
    (split; [| split]); intros; try reflexivity.
  - destruct (Js.truthy arg); cbn [negb andb]; [| reflexivity].
    destruct (Js.parseInt (Js.show arg)); cbn [Js.isNaN negb]; [| reflexivity].
    apply logged_run_status.
  - apply logged_run_status.
  - destruct (Js.truthy (OPENAI_API_KEY env)); cbn [negb]; [| reflexivity].
    apply logged_run_status.
Qed.

(** ** Failures of the resolution *)

(** X8. Whenever the resolution of the commits throws, for whatever
    reason, the run of the commit script is what the resolution emitted
    followed by the handler's line: no session is opened, nothing is
    printed on standard output (not even the header) and the process
    ends normally. *)
Theorem resolution_failure_ends_run (env : Env) (w : World Commit.Args string)
    (evs : list Event) (e : Js.error) :
  config_ok env ->
  resolution w env = (evs, Throw e) ->
  let r := Commit.main env w in
  trace r = evs ++ [EStderr commit_label (Some e)] /\
  sessions (trace r) = [] /\
  stdout (trace r) = [] /\
  List.length (requests (trace r)) <= 1 /\
  outcome r = Finished.
Proof.
  intros Hok Hres r. subst r. rewrite (main_resolution_throws env w evs e Hok Hres).
  cbn [trace outcome].
  pose proof (resolution_only_requests w env) as Hq. rewrite Hres in Hq.
  destruct (only_requests_quiet _ Hq) as [H1 [H2 _]]. cbn [fst] in *.
  rewrite sessions_app, stdout_app, H1, H2.
  repeat split.
  assert (Hlen : List.length evs <= 1).
  { destruct (has_separator (SEMAPHORE_GIT_COMMIT_RANGE env)) eqn:Hsep.
    - destruct (SEMAPHORE_GIT_COMMIT_RANGE env) as [s |] eqn:Hrange; [| discriminate].
      rewrite (resolution_with_separator env w s Hrange Hsep) in Hres.
      injection Hres as <- _. simpl. lia.
    - unfold resolution in Hres. rewrite (commitsToReview_single env w _ _ _ [] Hsep) in Hres.
      destruct (Js.truthy (SEMAPHORE_GIT_COMMIT_RANGE env)); [discriminate |].
      destruct (Js.truthy (SEMAPHORE_GIT_SHA env)); [discriminate |].
      injection Hres as <- _. simpl. lia. }
  unfold requests. rewrite flat_map_app. simpl. rewrite app_nil_r.
  clear - Hlen Hq. destruct evs as [| x [| y evs]]; simpl in *; try lia.
  destruct x; simpl; lia.
Qed.

Lemma resolution_failure_ends_run_witness :
  config_ok (Scenario.with_range None None) /\
  let r := Commit.main (Scenario.with_range None None) (Scenario.calm_world None) in
  trace r =
    [] ++ [EStderr commit_label
             (Some (Js.Error "No commit or commit range found in environment variables."))] /\
  sessions (trace r) = [] /\
  stdout (trace r) = [] /\
  List.length (requests (trace r)) <= 1 /\
  outcome r = Finished.
Proof.
  assert (Hok : config_ok (Scenario.with_range None None)) by (repeat split; reflexivity).
  split; [exact Hok |].
  exact (resolution_failure_ends_run (Scenario.with_range None None) (Scenario.calm_world None)
           [] (Js.Error "No commit or commit range found in environment variables.")
           Hok eq_refl).
Defined.

(** X9. A compare request that fails ends the run after that one
    request, with the failure on standard error: the error [fetch]
    rejected with; for a response that is not ok, an error naming the
    status and the status text; for an ok response whose body is not
    JSON, the error [json()] rejected with. *)
Theorem compare_failure_is_logged (env : Env) (w : World Commit.Args string) (s : string) :
  config_ok env ->
  SEMAPHORE_GIT_COMMIT_RANGE env = Some s ->
  Js.includes "..." s = true ->
  let req := compare_request env s in
  let logged e := [EFetch req; EStderr commit_label (Some e)] in
  match fetch_reply w [] req with
  | Rejected e => trace (Commit.main env w) = logged e
  | Resolved resp =>
      if ok resp then
        match json_body resp with
        | inl e => trace (Commit.main env w) = logged e
        | inr _ => True
        end
      else
        trace (Commit.main env w) =
          logged (Js.Error (template ["Failed to compare commits: ";
                                      Js.show_number (status resp);
                                      " - "; statusText resp]))
  end.
Proof.
  intros Hok Hrange Hinc req logged.
  pose proof (resolution_with_separator env w s Hrange Hinc) as Hres. fold req in Hres.
  destruct (fetch_reply w [] req) as [e | resp].
  - rewrite (main_resolution_throws env w _ _ Hok Hres). reflexivity.
  - destruct (ok resp).
    + destruct (json_body resp) as [e | j]; [| exact I].
      rewrite (main_resolution_throws env w _ _ Hok Hres). reflexivity.
    + rewrite (main_resolution_throws env w _ _ Hok Hres). reflexivity.
Qed.

Lemma compare_failure_is_logged_witness :
  config_ok Scenario.env_ok /\
  trace (Commit.main Scenario.env_ok Scenario.down_world) =
    [EFetch (compare_request Scenario.env_ok "abc...def");
     EStderr commit_label (Some (Js.Error "Failed to compare commits: 404 - Not Found"))].
Proof.
  assert (Hok : config_ok Scenario.env_ok) by (repeat split; reflexivity).
  split; [exact Hok |].
  exact (compare_failure_is_logged Scenario.env_ok Scenario.down_world "abc...def"
           Hok eq_refl eq_refl).
Defined.

(** ** The pull-request number, from the command line to the prompt *)

Lemma digits_string_of_uint (d : Decimal.uint) (a : Z) :
  Js.digits (NilEmpty.string_of_uint d) (Some a) = Some (decimal_value d a).
Proof.
  revert a. induction d; intros a; simpl; try reflexivity; rewrite IHd; f_equal; f_equal; lia.
Qed.

Lemma digits_string_of_uint_start (d : Decimal.uint) :
  d <> Decimal.Nil ->
  Js.digits (NilEmpty.string_of_uint d) None = Some (decimal_value d 0).
Proof.
  destruct d; intros Hd; [congruence | ..]; simpl; apply digits_string_of_uint.
Qed.

Lemma parseInt_string_of_uint (d : Decimal.uint) :
  d <> Decimal.Nil ->
  Js.parseInt (NilEmpty.string_of_uint d) = Js.digits (NilEmpty.string_of_uint d) None.
Proof.
  destruct d; intros Hd; [congruence | ..]; reflexivity.
Qed.

Lemma decimal_value_of_uint_acc (d : Decimal.uint) (p : positive) :
  decimal_value d (Z.pos p) = Z.pos (Pos.of_uint_acc d p).
Proof.
  revert p. induction d; intros p; cbn [decimal_value Pos.of_uint_acc]; try reflexivity;
    rewrite <- IHd; f_equal; lia.
Qed.

Lemma decimal_value_of_uint (d : Decimal.uint) : decimal_value d 0 = Z.of_uint d.
Proof.
  unfold Z.of_uint. induction d; simpl; try reflexivity;
    try (apply (decimal_value_of_uint_acc d)).
  exact IHd.
Qed.

Lemma parseInt_to_uint (p : positive) :
  Js.parseInt (NilEmpty.string_of_uint (Pos.to_uint p)) = Some (Z.pos p).
Proof.
  pose proof (Unsigned.to_uint_nonnil p) as Hd.
  rewrite (parseInt_string_of_uint _ Hd), (digits_string_of_uint_start _ Hd).
  rewrite decimal_value_of_uint. unfold Z.of_uint. rewrite Unsigned.of_to. reflexivity.
Qed.

Lemma string_of_uint_nonnil (d : Decimal.uint) :
  d <> Decimal.Nil -> NilZero.string_of_uint d = NilEmpty.string_of_uint d.
Proof.
  destruct d; intros Hd; [congruence | ..]; reflexivity.
Qed.

(** What [parseInt] reads from the canonical numeral of [z] is [z]. *)
Lemma parseInt_show_number (z : Z) : Js.parseInt (Js.show_number z) = Some z.
Proof.
  unfold Js.show_number. destruct z as [| p | p]; [reflexivity | |].
  - simpl. rewrite (string_of_uint_nonnil _ (Unsigned.to_uint_nonnil p)).
    apply parseInt_to_uint.
  - simpl. rewrite (string_of_uint_nonnil _ (Unsigned.to_uint_nonnil p)).
    pose proof (parseInt_to_uint p) as H.
    rewrite (parseInt_string_of_uint _ (Unsigned.to_uint_nonnil p)) in H.
    unfold Js.parseInt. cbn [Js.skip_space Js.is_space].
    change (Js.digits (NilEmpty.string_of_uint (Pos.to_uint p)) None = Some (Z.pos p)) in H.
    simpl. rewrite H. reflexivity.
Qed.

Lemma show_number_truthy (z : Z) : Js.truthy (Some (Js.show_number z)) = true.
Proof.
  pose proof (parseInt_show_number z) as H. simpl.
  destruct (Js.show_number z); [discriminate H | reflexivity].
Qed.

(** X10. The pull-request number survives the trip from the command
    line to the prompt: for every safe integer [z] (the integers that
    JavaScript numbers hold exactly), zero and negative numbers included
    (there is no check that it is positive), the canonical numeral of
    [z] as argument is read back as [z] and the run opens exactly one
    session, whose prompt and tool payload name [z]. *)
Theorem integer_argument_round_trip (env : Env) (z : Z) (w : World Pr.Args string) :
  config_ok env ->
  safe_integer z ->
  Js.parseInt (Js.show_number z) = Some z /\
  sessions (trace (Pr.main env (Some (Js.show_number z)) w)) =
    [Pr.review_options (Js.show (GITHUB_OWNER env)) (Js.show (GITHUB_REPO env)) z].
Proof.
  intros [Ho [Hr Ht]] _. split; [apply parseInt_show_number |].
  unfold Pr.main. rewrite Ho, Hr, Ht, show_number_truthy. cbn [negb Js.show].
  rewrite parseInt_show_number.
  apply (single_session_run w (Pr.fetchPullRequestDiff w (Js.show (GITHUB_TOKEN env)))
           (fetchPullRequestDiff_only_requests w _)).
Qed.

Lemma integer_argument_round_trip_witness :
  config_ok Scenario.env_ok /\
  safe_integer (-7) /\
  Js.parseInt (Js.show_number (-7)) = Some (-7)%Z /\
  sessions (trace (Pr.main Scenario.env_ok (Some (Js.show_number (-7))) Scenario.pr_world)) =
    [Pr.review_options "acme" "widgets" (-7)].
Proof.
  assert (Hok : config_ok Scenario.env_ok) by (repeat split; reflexivity).
  assert (Hsafe : safe_integer (-7)) by (unfold safe_integer; lia).
  split; [exact Hok |]. split; [exact Hsafe |].
  exact (integer_argument_round_trip Scenario.env_ok (-7) Scenario.pr_world Hok Hsafe).
Defined.

(** ** More on the run of src/commit.ts *)

(** X11. A run of the commit script that left standard error empty has
    reviewed everything: the resolution succeeded, and there is one
    session and one report per resolved commit, in order, between the
    header and the footer. *)
Theorem quiet_run_reviewed_everything (env : Env) (w : World Commit.Args string) :
  config_ok env ->
  stderr (trace (Commit.main env w)) = [] ->
  exists evs0 shas answers,
    resolution w env = (evs0, Normal shas) /\
    List.length answers = List.length shas /\
    sessions (trace (Commit.main env w)) = map (commit_options env) shas /\
    stdout (trace (Commit.main env w)) =
      review_header :: transcript shas answers ++ [review_footer].
Proof.
  intros Hok Hquiet.
  destruct (resolution w env) as [evs0 [shas | e]] eqn:Hres.
  - exists evs0, shas.
    pose proof (resolution_only_requests w env) as Hq. rewrite Hres in Hq.
    destruct (only_requests_quiet _ Hq) as [Hq1 [Hq2 Hq3]]. cbn [fst] in *.
    destruct (main_after_resolution w env _ _ Hok Hres) as [h Hmain].
    rewrite Hmain in *. clear Hmain.
    destruct (for_of_review_prefix w env shas h) as [k [answers [Hk [Hses [Hout Hcompl]]]]].
    destruct (for_of shas (review_commit w env) h) as [evs [[] | e]]; cbn [fst snd trace] in *.
    + destruct Hcompl as [Hlen _]. exists answers.
      assert (Hkall : k = List.length shas) by lia. subst k. rewrite firstn_all in Hses.
      rewrite !sessions_app, !stdout_app, Hses, Hout, Hq1, Hq2. simpl. rewrite app_nil_r.
      repeat split. exact Hlen.
    + rewrite !stderr_app in Hquiet. simpl in Hquiet.
      apply app_eq_nil in Hquiet. destruct Hquiet as [_ Hquiet]. discriminate Hquiet.
  - rewrite (main_resolution_throws env w _ _ Hok Hres) in Hquiet. cbn [trace] in Hquiet.
    rewrite stderr_app in Hquiet. apply app_eq_nil in Hquiet.
    destruct Hquiet as [_ Hquiet]. discriminate Hquiet.
Qed.

Lemma quiet_run_reviewed_everything_witness :
  config_ok Scenario.env_ok /\
  exists evs0 shas answers,
    resolution (Scenario.calm_world (Some Scenario.three_commits)) Scenario.env_ok =
      (evs0, Normal shas) /\
    List.length answers = List.length shas /\
    sessions (trace (Commit.main Scenario.env_ok
                       (Scenario.calm_world (Some Scenario.three_commits)))) =
      map (commit_options Scenario.env_ok) shas /\
    stdout (trace (Commit.main Scenario.env_ok
                     (Scenario.calm_world (Some Scenario.three_commits)))) =
      review_header :: transcript shas answers ++ [review_footer].
Proof.
  assert (Hok : config_ok Scenario.env_ok) by (repeat split; reflexivity).
  split; [exact Hok |].
  exact (quiet_run_reviewed_everything Scenario.env_ok
           (Scenario.calm_world (Some Scenario.three_commits)) Hok eq_refl).
Defined.

(** X12. With a range that has no separator, or no range but a
    fallback SHA, the commit script issues no compare request: the run
    starts with the header and the session of that one commit, and no
    other session is opened. *)
Theorem single_commit_opens_one_session (env : Env) (w : World Commit.Args string) :
  config_ok env ->
  has_separator (SEMAPHORE_GIT_COMMIT_RANGE env) = false ->
  Js.truthy (Js.or_else (SEMAPHORE_GIT_COMMIT_RANGE env) (SEMAPHORE_GIT_SHA env)) = true ->
  let sha := Js.show (Js.or_else (SEMAPHORE_GIT_COMMIT_RANGE env) (SEMAPHORE_GIT_SHA env)) in
  let r := Commit.main env w in
  sessions (trace r) = [commit_options env sha] /\
  exists rest, trace r = EStdout review_header :: EGenerate (commit_options env sha) :: rest.
Proof.
  intros Hok Hsep Htruthy sha r.
  assert (Hres : resolution w env = ([], Normal [sha])).
  { unfold resolution. rewrite (commitsToReview_single env w _ _ _ [] Hsep).
    subst sha. unfold Js.or_else in *.
    destruct (Js.truthy (SEMAPHORE_GIT_COMMIT_RANGE env)); [reflexivity |].
    rewrite Htruthy. reflexivity. }
  destruct (main_after_resolution w env _ _ Hok Hres) as [h Hmain].
  subst r. rewrite Hmain. clear Hmain. rewrite for_of_cons.
  destruct (review_one_cases w env sha h) as [[evs [t [Hs Hr]]] | [evs [e [Hs Hr]]]];
    rewrite Hr; destruct (session_projections w env sha h _ _ Hs) as [H1 [H2 H3]];
    destruct (generateText_events w (Commit.fetchCommitDiff w (Js.show (GITHUB_TOKEN env)))
                (fetchCommitDiff_only_requests w _) (commit_options env sha) h)
      as [evs' [Hevs _]];
    unfold commit_session in Hs; rewrite Hs in Hevs; simpl in Hevs; subst evs;
    cbn [fst snd trace for_of ret app].
  - split; [| eexists; reflexivity].
    unfold sessions in *. simpl in H1. injection H1 as H1.
    cbn [flat_map app]. rewrite !flat_map_app, H1. reflexivity.
  - split; [| eexists; reflexivity].
    unfold sessions in *. simpl in H1. injection H1 as H1.
    cbn [flat_map app]. rewrite !flat_map_app, H1. reflexivity.
Qed.

Lemma single_commit_opens_one_session_witness :
  config_ok (Scenario.with_range None (Some "f00d")) /\
  let r := Commit.main (Scenario.with_range None (Some "f00d")) (Scenario.calm_world None) in
  sessions (trace r) = [commit_options (Scenario.with_range None (Some "f00d")) "f00d"] /\
  exists rest,
    trace r = EStdout review_header
                :: EGenerate (commit_options (Scenario.with_range None (Some "f00d")) "f00d")
                :: rest.
Proof.
  assert (Hok : config_ok (Scenario.with_range None (Some "f00d")))
    by (repeat split; reflexivity).
  split; [exact Hok |].
  exact (single_commit_opens_one_session (Scenario.with_range None (Some "f00d"))
           (Scenario.calm_world None) Hok eq_refl eq_refl).
Defined.

Lemma template_cons (x : string) (xs : list string) :
  template (x :: xs) = String.append x (template xs).
Proof.
  unfold template. destruct xs as [| y ys]; simpl.
  - rewrite append_empty_r. reflexivity.
  - reflexivity.
Qed.

Lemma split_nonempty (s : string) : 1 <= List.length (Js.split "..." s).
Proof.
  rewrite (split_cut "..." s separator_nonempty).
  destruct (Js.cut "..." s) as [[a b] |]; simpl; lia.
Qed.

(** With a separator in the range, the resolution emits one event
    whatever the host answers: the compare request built from the first
    two components of the split. *)
Lemma commitsToReview_request (w : World Commit.Args string) (env : Env)
    (owner repo token s : string) (h : list Event) :
  SEMAPHORE_GIT_COMMIT_RANGE env = Some s ->
  Js.includes "..." s = true ->
  fst (Commit.commitsToReview w env owner repo token h) =
    [EFetch {| url := Commit.compare_url owner repo
                        (fst (Js.destructure2 (Js.split "..." s)))
                        (snd (Js.destructure2 (Js.split "..." s)));
               init := Commit.compare_init token |}].
Proof.
  intros Hrange Hinc.
  assert (Hc : Js.truthy (Some s) && Js.includes "..." (Js.show (Some s)) = true)
    by (rewrite range_condition; exact Hinc).
  unfold Commit.commitsToReview. rewrite Hrange, Hc. change (Js.show (Some s)) with s.
  destruct (Js.destructure2 (Js.split "..." s)) as [base head].
  unfold bind, fetch. cbn [fst snd].
  destruct (fetch_reply w h _) as [e | resp]; [reflexivity |].
  destruct (ok resp); cbn [negb]; [| reflexivity].
  unfold response_json.
  destruct (json_body resp) as [e | [[[| c cs] |] | entries]]; reflexivity.
Qed.

(** X13. A range with exactly one separator reaches the compare
    endpoint as it is: the one event the resolution emits, whatever the
    host answers, is the request to /repos/{owner}/{repo}/compare/
    followed by the range string itself, with the JSON Accept header and
    the bearer token; with a complete configuration it is the first
    event of the run. *)
Theorem single_separator_range_passed_verbatim (env : Env) (w : World Commit.Args string)
    (owner repo token s : string) (h : list Event) :
  SEMAPHORE_GIT_COMMIT_RANGE env = Some s ->
  Js.includes "..." s = true ->
  List.length (Js.split "..." s) = 2 ->
  fst (Commit.commitsToReview w env owner repo token h) =
    [EFetch {| url := template [api; "/repos/"; owner; "/"; repo; "/compare/"; s];
               init := {| method := None;
                          headers := [("Accept", "application/vnd.github.v3+json");
                                      ("Authorization", template ["Bearer "; token])] |} |}] /\
  (config_ok env ->
   exists rest,
     trace (Commit.main env w) =
       EFetch {| url := template [api; "/repos/"; Js.show (GITHUB_OWNER env); "/";
                                  Js.show (GITHUB_REPO env); "/compare/"; s];
                 init := {| method := None;
                            headers := [("Accept", "application/vnd.github.v3+json");
                                        ("Authorization",
                                         template ["Bearer "; Js.show (GITHUB_TOKEN env)])] |} |}
       :: rest).
Proof.
  intros Hrange Hinc Hlen.
  destruct (includes_cut _ _ Hinc) as [base [rest Hcut]].
  pose proof (cut_append _ _ _ _ Hcut) as Hs.
  rewrite (split_cut "..." s separator_nonempty), Hcut in Hlen.
  assert (Hrest : Js.split "..." rest = [rest]).
  { rewrite (split_cut "..." rest separator_nonempty) in *.
    destruct (Js.cut "..." rest) as [[a b] |]; [| reflexivity].
    pose proof (split_nonempty b). simpl in Hlen. lia. }
  assert (Hurl : forall o r,
             Commit.compare_url o r (fst (Js.destructure2 (Js.split "..." s)))
               (snd (Js.destructure2 (Js.split "..." s))) =
             template [api; "/repos/"; o; "/"; r; "/compare/"; s]).
  { intros o r. rewrite (split_cut "..." s separator_nonempty), Hcut, Hrest.
    cbn [Js.destructure2 nth_error fst snd Commit.compare_url Js.show].
    rewrite !template_cons. rewrite Hs. rewrite !append_assoc.
    cbn [template String.concat]. rewrite !append_empty_r. reflexivity. }
  assert (Hreq : forall o r t h',
             fst (Commit.commitsToReview w env o r t h') =
               [EFetch {| url := template [api; "/repos/"; o; "/"; r; "/compare/"; s];
                          init := {| method := None;
                                     headers := [("Accept", "application/vnd.github.v3+json");
                                                 ("Authorization", template ["Bearer "; t])] |}
                       |}]).
  { intros o r t h'. rewrite (commitsToReview_request w env o r t s h' Hrange Hinc), Hurl.
    reflexivity. }
  split; [apply Hreq |].
  intros Hok.
  destruct (resolution w env) as [evs0 [shas | e]] eqn:Hres;
    pose proof (Hreq (Js.show (GITHUB_OWNER env)) (Js.show (GITHUB_REPO env))
                  (Js.show (GITHUB_TOKEN env)) []) as Hfirst;
    unfold resolution in Hres; rewrite Hres in Hfirst; cbn [fst] in Hfirst; subst evs0.
  - destruct (main_after_resolution w env _ _ Hok Hres) as [h0 Hmain]. rewrite Hmain.
    destruct (for_of shas (review_commit w env) h0) as [evs [[] | e]];
      cbn [trace app]; eexists; reflexivity.
  - rewrite (main_resolution_throws env w _ _ Hok Hres). cbn [trace app].
    eexists. reflexivity.
Qed.

Lemma single_separator_range_passed_verbatim_witness :
  Js.includes "..." "abc...def" = true /\
  fst (Commit.commitsToReview Scenario.down_world Scenario.env_ok "acme" "widgets" "t0k3n" []) =
    [EFetch {| url := "https://api.github.com/repos/acme/widgets/compare/abc...def";
               init := {| method := None;
                          headers := [("Accept", "application/vnd.github.v3+json");
                                      ("Authorization", "Bearer t0k3n")] |} |}].
Proof.
  split; [reflexivity |].
  exact (proj1 (single_separator_range_passed_verbatim Scenario.env_ok Scenario.down_world
                  "acme" "widgets" "t0k3n" "abc...def" [] eq_refl eq_refl eq_refl)).
Defined.

(** ** Start-up, once more *)

(** X14. The release script also requires the model-provider key:
    when OPENAI_API_KEY is absent or empty the run stops on an uncaught
    error before any request or session, with the message that names the
    key when the three GitHub values are set. *)
Theorem missing_model_key_aborts_release (env : Env) (w : World Release.Args (list string)) :
  Js.truthy (OPENAI_API_KEY env) = false ->
  aborted_before_network (Release.main env w) /\
  trace (Release.main env w) = [] /\
  (config_ok env ->
   outcome (Release.main env w) =
     Uncaught (Js.Error "Missing OPENAI_API_KEY environment variable.")).
Proof.
  intros Hkey. unfold Release.main, aborted_before_network, config_ok. rewrite Hkey.
  destruct (Js.truthy (GITHUB_OWNER env)), (Js.truthy (GITHUB_REPO env)),
    (Js.truthy (GITHUB_TOKEN env)); cbn [negb orb];
    (split; [split; [eexists; reflexivity | split; [discriminate | reflexivity]] |]);
    (split; [reflexivity |]); intros [H1 [H2 H3]]; try discriminate; reflexivity.
Qed.

Lemma missing_model_key_aborts_release_witness :
  Js.truthy (OPENAI_API_KEY Scenario.env_no_key) = false /\
  aborted_before_network (Release.main Scenario.env_no_key Scenario.release_world) /\
  trace (Release.main Scenario.env_no_key Scenario.release_world) = [] /\
  (config_ok Scenario.env_no_key ->
   outcome (Release.main Scenario.env_no_key Scenario.release_world) =
     Uncaught (Js.Error "Missing OPENAI_API_KEY environment variable.")).
Proof.
  split; [reflexivity |].
  exact (missing_model_key_aborts_release Scenario.env_no_key Scenario.release_world eq_refl).
Defined.

(** X15. The pull-request and commit scripts report the first missing
    variable by name, in the order owner, repository, token, and do so
    before looking at the command line; the release script reports one
    message for the three, without a name. *)
Theorem first_missing_variable_is_named (env : Env) (name : string) :
  first_missing env = Some name ->
  (forall arg w,
      Pr.main env arg w =
        uncaught (Js.Error (template ["Environment variable "; name; " is not set."]))) /\
  (forall w,
      Commit.main env w =
        uncaught (Js.Error (template ["Environment variable "; name; " is not set."]))) /\
  (forall w,
      Release.main env w =
        uncaught (Js.Error "Missing required environment variables for GitHub access.")).
Proof.
  unfold first_missing, Pr.main, Commit.main, Release.main.
  destruct (Js.truthy (GITHUB_OWNER env)), (Js.truthy (GITHUB_REPO env)),
    (Js.truthy (GITHUB_TOKEN env)); cbn [negb orb]; intros Hname;
    try discriminate Hname; injection Hname as <-; repeat split.
Qed.

Lemma first_missing_variable_is_named_witness :
  first_missing Scenario.env_no_repo = Some "GITHUB_REPO" /\
  Pr.main Scenario.env_no_repo None Scenario.pr_world =
    uncaught (Js.Error "Environment variable GITHUB_REPO is not set.").
Proof.
  split; [reflexivity |].
  exact (proj1 (first_missing_variable_is_named Scenario.env_no_repo "GITHUB_REPO" eq_refl)
           None Scenario.pr_world).
Defined.

(** ** What the tools return *)



Example fetchCommits_two_messages :
  Release.fetchCommits Scenario.log_world "t0k3n"
    {| Release.owner := "acme"; Release.repo := "widgets"; Release.perPage := None |} [] =
    ([EFetch (commits_request "t0k3n" "acme" "widgets" 10)],
     Normal ["feat: add x"; "fix: y"]).
Proof. reflexivity. Qed.
